(** * SecureScan browser client: token-refresh interceptor, scan polling,
      form submission and pagination, embedded from the TypeScript sources.

    Layout: the embedding of the sources first (one module per source
    file), then the lemmas about it.

    - [JS]           the few JavaScript primitives the sources rely on
    - [Types]        [types/index.ts]
    - [AuthStore]    the session store ([stores/authStore], not among the
                     sources at hand)
    - [Api]          [services/api.ts]: axios instance and its interceptors
    - [ScanDetail]   [pages/ScanDetail.tsx]: the two [useQuery] calls
    - [Forms]        the shape of errors caught by the form handlers
    - [Login], [Register], [NewScan]   the [handleSubmit] handlers
    - [ScanHistory]  [pages/ScanHistory.tsx]: page count and page buttons
    - [ScanCard]     [components/ScanCard.tsx]: the summary line of a card
    - [Dashboard]    [pages/Dashboard.tsx]: the summary cards and the chart
    - [App]          [App.tsx]: the routes and their guards *)

From Stdlib Require Import ZArith Lia.
From stdpp Require Import gmap strings list pretty.

Local Open Scope Z_scope.

(* ===================================================================== *)
(** ** JavaScript primitives                                               *)
(* ===================================================================== *)

Module JS.

(** A value of type [string | null | undefined]: [None] stands for the
    absent value. *)
Definition str : Type := option string.

(** [if (v)] on such a value: absent values and the empty string are falsy. *)
Definition truthy (v : str) : bool :=
  match v with
  | Some s => negb (String.eqb s "")
  | None => false
  end.

(** The interpolation [`${v}`]. *)
Definition interpolate (v : str) : string :=
  match v with
  | Some s => s
  | None => "undefined"
  end.

(** [xs.join(sep)]: absent elements are rendered as the empty string. *)
Definition join (sep : string) (xs : list str) : string :=
  String.concat sep (map (fun x => default "" x) xs).

(** [v || d] on strings. *)
Definition or_else (v : str) (d : string) : string :=
  if truthy v then interpolate v else d.

(** [s.startsWith(p)] *)
Definition startsWith (s p : string) : bool := String.prefix p s.

(** Two strings that differ at most in the case of ASCII letters. *)
Definition lower (c : Ascii.ascii) : Ascii.ascii :=
  let n := Ascii.nat_of_ascii c in
  if (65 <=? n)%nat && (n <=? 90)%nat then Ascii.ascii_of_nat (n + 32) else c.

Fixpoint lowercase (s : string) : string :=
  match s with
  | EmptyString => EmptyString
  | String c s => String (lower c) (lowercase s)
  end.

Definition same_ignoring_case (a b : string) : bool :=
  String.eqb (lowercase a) (lowercase b).

(** [Math.ceil(n / d)] for integers [n] and a positive integer [d]. *)
Definition ceil_div (n d : Z) : Z := - ((- n) / d).

End JS.

(* ===================================================================== *)
(** ** types/index.ts                                                      *)
(* ===================================================================== *)

Module Types.

Inductive ScanStatus := pending | running | completed | failed | cancelled.

Inductive Severity := critical | high | medium | low | info.

Record User := {
  user_id : Z;
  email : string;
  username : string;
  full_name : option string;
  is_active : bool;
  user_created_at : string;
}.

Record Scan := {
  id : Z;
  target_url : string;
  target_domain : string;
  scan_type : string;
  scan_depth : Z;
  status : ScanStatus;
  progress : Z;
  total_vulnerabilities : Z;
  critical_count : Z;
  high_count : Z;
  medium_count : Z;
  low_count : Z;
  info_count : Z;
  error_message : option string;
  started_at : option string;
  completed_at : option string;
  created_at : string;
}.

#[global] Instance ScanStatus_eq_dec : EqDecision ScanStatus.
Proof. solve_decision. Defined.

(** The glossary's terminal statuses. *)
Definition terminal (s : ScanStatus) : bool :=
  match s with
  | completed | failed | cancelled => true
  | pending | running => false
  end.

End Types.

(* ===================================================================== *)
(** ** stores/authStore                                                    *)
(* ===================================================================== *)

Module AuthStore.

(** Modelled from the spec: the type of the session held by
    [useAuthStore], whose source file is not at hand.  Section 3 of the
    specification gives its fields: Session = { accessToken, refreshToken,
    user }. *)
Record State := {
  user : option Types.User;
  accessToken : JS.str;
  refreshToken : JS.str;
}.

(** Modelled from the spec: [setTokens] of the absent [authStore].  The
    session is "mutated on token refresh": the new access and refresh
    tokens are persisted, the user is kept. *)
Definition setTokens (access refresh : JS.str) (s : State) : State :=
  {| user := user s; accessToken := access; refreshToken := refresh |}.

(** Modelled from the spec: [logout] of the absent [authStore].  The
    session is "destroyed on logout": nothing of it is left. *)
Definition logout (_ : State) : State :=
  {| user := None; accessToken := None; refreshToken := None |}.

End AuthStore.

(* ===================================================================== *)
(** ** services/api.ts                                                     *)
(* ===================================================================== *)

Module Api.

(** *** Data on the wire *)

(** One entry of a list-valued [detail]: a plain string or an object with
    an optional [msg]. *)
Inductive DetailItem :=
| ItemString (s : string)
| ItemObject (msg : JS.str).

(** [response.data?.detail]: absent, a string, a list of entries, or an
    object with an optional [message]. *)
Inductive Detail :=
| NoDetail
| DetailString (s : string)
| DetailList (items : list DetailItem)
| DetailObject (message : JS.str).

(** [response.data], with the fields the client reads. *)
Record Body := {
  detail : Detail;
  access_token : JS.str;
  refresh_token : JS.str;
}.

Record Response := { status : Z; data : Body }.

(** The request configuration axios hands to the interceptors.  [_retry]
    is the client's own mark; it is absent (falsy) on a fresh request. *)
Record Config := {
  url : string;
  method : string;
  headers : gmap string string;
  _retry : bool;
}.

(** [config.headers[name] = value] *)
Definition set_header (name value : string) (c : Config) : Config :=
  {| url := url c; method := method c;
     headers := <[name := value]> (headers c); _retry := _retry c |}.

(** [config._retry = true] *)
Definition set_retry (c : Config) : Config :=
  {| url := url c; method := method c; headers := headers c; _retry := true |}.

(** The error axios rejects with: the configuration of the request and,
    when the server answered, its response. *)
Record AxiosError := { config : Config; response : option Response }.

Inductive Settled :=
| Resolved (r : Response)
| Rejected (e : AxiosError).

(** What comes back for one request put on the wire. *)
Inductive Reply :=
| Http (r : Response)
| NetworkError.

(** axios' default [validateStatus]: 2xx resolves, everything else
    rejects. *)
Definition validateStatus (st : Z) : bool := (200 <=? st) && (st <? 300).

Definition settle (c : Config) (r : Reply) : Settled :=
  match r with
  | Http resp =>
      if validateStatus (status resp) then Resolved resp
      else Rejected {| config := c; response := Some resp |}
  | NetworkError => Rejected {| config := c; response := None |}
  end.

(** *** The world the client runs in *)

(** Effects of the client, in program order. *)
Inductive Event :=
| Send (c : Config)                 (* a request of the [api] instance goes out *)
| MarkRetried                       (* [originalRequest._retry = true] *)
| PostRefresh (refresh_token : string)  (* [axios.post('/api/v1/auth/refresh', ...)] *)
| SetTokens (access refresh : JS.str)
| Logout.

(** The session store, the replies the backend is going to give (in the
    order the requests go out; an exhausted list is a dead connection),
    and the effects so far. *)
Record World := {
  store : AuthStore.State;
  wire : list Reply;
  log : list Event;
}.

(** Computations over the world; [None] only when the fuel of [api]
    below runs out. *)
Definition M (A : Type) : Type := World -> option (A * World).

Definition ret {A} (a : A) : M A := fun w => Some (a, w).

Definition bind {A B} (m : M A) (k : A -> M B) : M B :=
  fun w => match m w with
           | Some (a, w') => k a w'
           | None => None
           end.

Definition out_of_fuel {A} : M A := fun _ => None.

Declare Scope api_scope.
Delimit Scope api_scope with api.
Notation "x <- m ;; k" := (bind m (fun x => k))
  (at level 100, m at next level, right associativity) : api_scope.
Notation "m ;; k" := (bind m (fun _ => k))
  (at level 100, right associativity) : api_scope.
Local Open Scope api_scope.

(** [useAuthStore.getState()] *)
Definition getState : M AuthStore.State := fun w => Some (store w, w).

Definition emit (e : Event) : M unit :=
  fun w => Some (tt, {| store := store w; wire := wire w; log := log w ++ [e] |}).

Definition update_store (f : AuthStore.State -> AuthStore.State) : M unit :=
  fun w => Some (tt, {| store := f (store w); wire := wire w; log := log w |}).

(** The next reply of the backend. *)
Definition receive : M Reply :=
  fun w => match wire w with
           | r :: rest => Some (r, {| store := store w; wire := rest; log := log w |})
           | [] => Some (NetworkError, w)
           end.

(** The adapter of the [api] instance: the request goes out, the reply is
    settled against [validateStatus]. *)
Definition dispatch (c : Config) : M Settled :=
  emit (Send c) ;;
  r <- receive ;;
  ret (settle c r).

Definition API_BASE_URL : string := "/api/v1".

Definition refresh_config : Config :=
  {| url := API_BASE_URL +:+ "/auth/refresh"; method := "post";
     headers := ∅; _retry := false |}.

(** [axios.post(`${API_BASE_URL}/auth/refresh`, { refresh_token })] on the
    global axios: no interceptor of [api] is involved. *)
Definition post_refresh (refreshToken : string) : M Settled :=
  emit (PostRefresh refreshToken) ;;
  r <- receive ;;
  ret (settle refresh_config r).

(** *** Request interceptor (lines 15-24) *)

Definition with_bearer (s : AuthStore.State) (c : Config) : Config :=
  if JS.truthy (AuthStore.accessToken s)
  then set_header "Authorization"
         ("Bearer " +:+ JS.interpolate (AuthStore.accessToken s)) c
  else c.

Definition request_interceptor (c : Config) : M Config :=
  s <- getState ;;
  ret (with_bearer s c).

(** *** Response interceptor (lines 27-59) *)

Section Interceptors.

(** The two actions of the session store the interceptor calls.  Their
    source is not at hand: they are parameters here, and
    [AuthStore.setTokens], [AuthStore.logout] where a statement depends on
    what they do. *)
Variable setTokens : JS.str -> JS.str -> AuthStore.State -> AuthStore.State.
Variable logout : AuthStore.State -> AuthStore.State.

(** [error.response?.status === 401] *)
Definition is_401 (e : AxiosError) : bool :=
  match response e with
  | Some r => status r =? 401
  | None => false
  end.

(** The rejection handler.  [api] is the instance itself, called to
    re-issue the request.  [error.config] and [originalRequest] are one
    object: what is written to [originalRequest] shows in the error that
    is finally rejected. *)
Definition on_rejected (api : Config -> M Settled) (error : AxiosError) : M Settled :=
  let originalRequest := config error in
  if is_401 error && negb (_retry originalRequest) then
    let originalRequest := set_retry originalRequest in
    emit MarkRetried ;;
    s <- getState ;;
    let error := {| config := originalRequest; response := response error |} in
    if JS.truthy (AuthStore.refreshToken s) then
      r <- post_refresh (JS.interpolate (AuthStore.refreshToken s)) ;;
      match r with
      | Resolved resp =>
          let access_token := access_token (data resp) in
          let refresh_token := refresh_token (data resp) in
          emit (SetTokens access_token refresh_token) ;;
          update_store (setTokens access_token refresh_token) ;;
          let originalRequest :=
            set_header "Authorization"
              ("Bearer " +:+ JS.interpolate access_token) originalRequest in
          api originalRequest
      | Rejected _ =>
          emit Logout ;;
          update_store logout ;;
          ret (Rejected error)
      end
    else
      emit Logout ;;
      update_store logout ;;
      ret (Rejected error)
  else
    ret (Rejected error).

(** A call [api(config)]: request interceptor, adapter, response
    interceptors.  The handler calls [api] again, so the definition takes
    fuel; [api_fuel_enough] below shows that two units always suffice. *)
Fixpoint api (fuel : nat) (c : Config) : M Settled :=
  match fuel with
  | O => out_of_fuel
  | S fuel =>
      c <- request_interceptor c ;;
      r <- dispatch c ;;
      match r with
      | Resolved resp => ret (Resolved resp)
      | Rejected error => on_rejected (api fuel) error
      end
  end.

End Interceptors.

(** *** The endpoint wrappers (lines 62-77) *)

Section Endpoints.

Variable setTokens : JS.str -> JS.str -> AuthStore.State -> AuthStore.State.
Variable logout : AuthStore.State -> AuthStore.State.

(** The configuration [api.get(url)] and [api.post(url, data)] start
    from: the instance's defaults (lines 7-12) and no mark.  The payload
    is not part of [Config]. *)
Definition request (method url : string) : Config :=
  {| url := url; method := method;
     headers := {[ "Content-Type" := "application/json" ]};
     _retry := false |}.

(** An [async] wrapper: [response.data] when the call resolves; the
    error is thrown when it rejects.  Two units of fuel are all [api]
    ever uses. *)
Definition call (method url : string) : M (AxiosError + Body) :=
  r <- api setTokens logout 2 (request method url) ;;
  ret (match r with
       | Resolved resp => inr (data resp)
       | Rejected e => inl e
       end).

(** [authAPI.register], [authAPI.login], [authAPI.me] *)
Definition authAPI_register : M (AxiosError + Body) := call "post" "/auth/register".
Definition authAPI_login : M (AxiosError + Body) := call "post" "/auth/login".
Definition authAPI_me : M (AxiosError + Body) := call "get" "/auth/me".

End Endpoints.

(** *** Reading the log *)

Definition is_refresh (e : Event) : bool :=
  match e with PostRefresh _ => true | _ => false end.

(** The requests of the [api] instance that went out, oldest first. *)
Definition sends (l : list Event) : list Config :=
  omap (fun e => match e with Send c => Some c | _ => None end) l.

(** The number of refresh calls. *)
Definition refreshes (l : list Event) : nat :=
  length (filter (fun e => is_refresh e = true) l).

(** The bearer credential a request carries. *)
Definition authorization (c : Config) : option string :=
  headers c !! "Authorization".

(** The reply the [k]-th request from now is going to get. *)
Definition reply_at (k : nat) (w : World) : Reply :=
  nth k (wire w) NetworkError.

(** The reply lets the promise of the request resolve. *)
Definition succeeds (r : Reply) : bool :=
  match r with
  | Http resp => validateStatus (status resp)
  | NetworkError => false
  end.

(** The world once [c] went out and its reply came in. *)
Definition sent (c : Config) (w : World) : World :=
  {| store := store w; wire := tail (wire w); log := log w ++ [Send c] |}.

(** Every refresh call in the log comes after a [MarkRetried]. *)
Definition marked_before_refresh (l : list Event) : Prop :=
  forall before rt after,
    l = before ++ PostRefresh rt :: after -> MarkRetried ∈ before.

End Api.

(* ===================================================================== *)
(** ** pages/ScanDetail.tsx                                                *)
(* ===================================================================== *)

Module ScanDetail.
Import Types.

(** [refetchInterval] of the scan query (lines 35-40): the delay in
    milliseconds until the next fetch, or [None] for [false]. *)
Definition refetchInterval (data : option Scan) : option Z :=
  match data with
  | Some d =>
      if bool_decide (status d = running) || bool_decide (status d = pending)
      then Some 3000
      else None
  | None => None
  end.

(** [enabled] of the vulnerability query (line 46):
    [scan?.status === 'completed']. *)
Definition enabled (scan : option Scan) : bool :=
  match scan with
  | Some s => bool_decide (status s = completed)
  | None => false
  end.

(** What one run of the scan query function ends in (for a failure: after
    the query library gave up on it). *)
Inductive Outcome :=
| Success (s : Scan)
| Failure.

(** Effects of the view, in order. *)
Inductive Effect :=
| GetScan                 (* [scanAPI.get(scanId)] *)
| GetVulnerabilities      (* [vulnerabilityAPI.getByScan(scanId)] *)
| Wait (ms : Z).          (* the refetch timer runs for [ms] milliseconds *)

#[global] Instance Effect_eq_dec : EqDecision Effect.
Proof. solve_decision. Defined.

(** The component between renders: what the scan query exposes and what
    has been done. *)
Record View := {
  scan : option Scan;        (* [data] of the scan query *)
  scanLoading : bool;        (* its [isLoading] *)
  vulnRequested : bool;      (* the vulnerability query has started *)
  trace : list Effect;
}.

(** The query library's side of the contract, as its documentation gives
    it: [data] is the last successfully fetched value and survives a
    failed fetch; [isLoading] holds until the first fetch has ended; a
    query with [enabled] false does not fetch and starts once [enabled]
    turns true; without [refetchInterval] (the vulnerability query) no
    timer is set. *)
Definition observe (o : Outcome) (v : View) : View :=
  let scan' := match o with
               | Success s => Some s
               | Failure => scan v
               end in
  {| scan := scan';
     scanLoading := false;
     vulnRequested := vulnRequested v || enabled scan';
     trace := trace v ++
              (if enabled scan' && negb (vulnRequested v)
               then [GetVulnerabilities] else []) |}.

(** After every outcome the library asks [refetchInterval] about the
    current [data]: a number arms the timer and the scan is fetched again
    when it fires, [false] leaves the query at rest.  [outcomes] are the
    results of the successive fetches; when they are used up the run is
    cut off with the last fetch still in flight. *)
Fixpoint poll (outcomes : list Outcome) (v : View) : View :=
  match outcomes with
  | [] => v
  | o :: rest =>
      let v := observe o v in
      match refetchInterval (scan v) with
      | Some ms =>
          poll rest
            {| scan := scan v; scanLoading := scanLoading v;
               vulnRequested := vulnRequested v;
               trace := trace v ++ [Wait ms; GetScan] |}
      | None => v
      end
  end.

(** Mounting the component starts the first fetch of the scan. *)
Definition mount : View :=
  {| scan := None; scanLoading := true; vulnRequested := false;
     trace := [GetScan] |}.

Definition run (outcomes : list Outcome) : View := poll outcomes mount.

(** What the component returns (lines 81-102). *)
Inductive Screen :=
| Spinner
| NotFound              (* "스캔을 찾을 수 없습니다" *)
| Detail (s : Scan).

Definition render (v : View) : Screen :=
  if scanLoading v then Spinner
  else match scan v with
       | None => NotFound
       | Some s => Detail s
       end.

(** The parts of the detail page that depend on the scan (lines 126,
    145, 166, 234, 245). *)
Inductive Part :=
| Downloads            (* the PDF and HTML buttons *)
| Progress             (* the progress bar *)
| SeverityCounts       (* the five summary cards *)
| ErrorMessage (message : string)
| Vulnerabilities.     (* the list of findings *)

Definition parts (s : Scan) : list Part :=
  (if bool_decide (status s = completed) then [Downloads] else []) ++
  (if bool_decide (status s = running) || bool_decide (status s = pending)
   then [Progress] else []) ++
  (if bool_decide (status s = completed) then [SeverityCounts] else []) ++
  (if bool_decide (status s = failed) && JS.truthy (error_message s)
   then [ErrorMessage (JS.interpolate (error_message s))] else []) ++
  (if bool_decide (status s = completed) then [Vulnerabilities] else []).

(** *** Reading the trace *)

Definition scan_fetches (t : list Effect) : nat :=
  length (filter (fun e => e = GetScan) t).

Definition vulnerability_fetches (t : list Effect) : nat :=
  length (filter (fun e => e = GetVulnerabilities) t).

(** One timer period and the fetch at its end, for every element of [l]. *)
Definition rounds {A} (l : list A) : list Effect :=
  flat_map (fun _ => [Wait 3000; GetScan]) l.

(** The statuses seen in a list of outcomes. *)
Definition observed (outcomes : list Outcome) : list ScanStatus :=
  omap (fun o => match o with Success s => Some (status s) | Failure => None end)
       outcomes.

End ScanDetail.

(* ===================================================================== *)
(** ** The form handlers                                                   *)
(* ===================================================================== *)

Module Forms.

(** What a [catch (error: any)] block reads off the error: the response
    when the server answered, whether a request went out, and the error's
    own message. *)
Record Caught := {
  response : option Api.Response;
  request : bool;
  message : JS.str;
}.

(** [error.response?.data?.detail] *)
Definition detail_of (error : Caught) : Api.Detail :=
  match response error with
  | Some r => Api.detail (Api.data r)
  | None => Api.NoDetail
  end.

(** An error thrown by the API client, as a [catch] block sees it: the
    request did go out, and the message is axios' own. *)
Definition of_axios (e : Api.AxiosError) : Caught :=
  {| response := Api.response e;
     request := true;
     message := Some (match Api.response e with
                      | Some r => "Request failed with status code "
                                  +:+ pretty (Api.status r)
                      | None => "Network Error"
                      end) |}.

End Forms.

(** *** pages/Login.tsx, the [catch] block of [handleSubmit] (lines 47-69) *)

Module Login.
Import Api Forms.

Record Toast := { text : string; duration : Z }.

Definition login_failed : string := "로그인에 실패했습니다".
Definition server_error : string :=
  "서버 오류가 발생했습니다. 잠시 후 다시 시도해주세요.".
Definition network_error : string :=
  "서버에 연결할 수 없습니다. 네트워크 연결을 확인해주세요.".

(** [err.msg] *)
Definition msg_of (err : DetailItem) : JS.str :=
  match err with
  | ItemString _ => None
  | ItemObject msg => msg
  end.

Definition error_message (error : Caught) : string :=
  let message := login_failed in
  match response error with
  | Some resp =>
      let message :=
        match detail (data resp) with
        | DetailString s => s
        | DetailList items => JS.join ", " (map msg_of items)
        | _ => message
        end in
      if status resp =? 500 then server_error else message
  | None =>
      if request error then network_error else message
  end.

(** The calls of [toast.error] the block makes. *)
Definition handleSubmit_catch (error : Caught) : list Toast :=
  [ {| text := error_message error; duration := 5000 |} ].

(** **** The whole of [handleSubmit] (lines 18-73) *)

(** What the handler does to the page. *)
Inductive Effect :=
| SetLoading (loading : bool)
| ToastError (text : string)          (* [toast.error(text)] *)
| ToastErrorFor (t : Toast)           (* [toast.error(text, { duration })] *)
| ToastSuccess (text : string)
| Navigate (to : string).

Definition fields_missing : string := "이메일과 비밀번호를 입력해주세요".
Definition login_succeeded : string := "로그인 성공!".

Section Submit.

(** The actions of the session store the handler and the interceptor
    call; [login] is [useAuthStore().login]. *)
Variable setTokens : JS.str -> JS.str -> AuthStore.State -> AuthStore.State.
Variable logout : AuthStore.State -> AuthStore.State.
Variable login : Body -> JS.str -> JS.str -> AuthStore.State -> AuthStore.State.

Local Open Scope api_scope.

(** The [catch] and [finally] blocks. *)
Definition failed (error : AxiosError) : list Effect :=
  map ToastErrorFor (handleSubmit_catch (of_axios error)) ++ [SetLoading false].

Definition handleSubmit (email password : string) : M (list Effect) :=
  if String.eqb email "" || String.eqb password "" then
    ret [ToastError fields_missing]
  else
    r <- authAPI_login setTokens logout ;;
    match r with
    | inl error => ret (SetLoading true :: failed error)
    | inr tokenResponse =>
        emit (SetTokens (access_token tokenResponse) (refresh_token tokenResponse)) ;;
        update_store (setTokens (access_token tokenResponse)
                                (refresh_token tokenResponse)) ;;
        r <- authAPI_me setTokens logout ;;
        match r with
        | inl error => ret (SetLoading true :: failed error)
        | inr userResponse =>
            update_store (login userResponse
                                (access_token tokenResponse)
                                (refresh_token tokenResponse)) ;;
            ret [SetLoading true; ToastSuccess login_succeeded;
                 Navigate "/dashboard"; SetLoading false]
        end
    end.

End Submit.

End Login.

(** *** pages/Register.tsx, the [catch] block of [handleSubmit] (lines 61-105) *)

Module Register.
Import Api Forms.

(** A toast and the delay of the timer that shows it. *)
Record Toast := { text : string; duration : Z; delay : Z }.

Definition invalid_input : string := "입력값 오류".
Definition server_error : string :=
  "서버 오류가 발생했습니다. 잠시 후 다시 시도해주세요.".
Definition network_error : string :=
  "서버에 연결할 수 없습니다. 네트워크 연결을 확인해주세요.".
Definition unknown_error : string := "알 수 없는 오류가 발생했습니다".
Definition register_failed : string := "회원가입에 실패했습니다".

Definition item_message (err : DetailItem) : string :=
  match err with
  | ItemString s => s
  | ItemObject msg => JS.or_else msg invalid_input
  end.

Definition messages (error : Caught) : list string :=
  let messages :=
    match response error with
    | Some resp =>
        let messages :=
          match detail (data resp) with
          | DetailString s => [s]
          | DetailList items => map item_message items
          | DetailObject message =>
              if JS.truthy message then [JS.interpolate message] else []
          | NoDetail => []
          end in
        if status resp =? 500 then [server_error] else messages
    | None =>
        if request error then [network_error]
        else [JS.or_else (message error) unknown_error]
    end in
  match messages with
  | [] => [register_failed]
  | _ => messages
  end.

(** [messages.forEach((msg, index) => setTimeout(() => toast.error(msg,
    { duration: 5000 }), index * 200))] *)
Definition handleSubmit_catch (error : Caught) : list Toast :=
  imap (fun index msg =>
          {| text := msg; duration := 5000; delay := Z.of_nat index * 200 |})
       (messages error).

(** **** The checks before the request (lines 28-57) *)

Record FormData := {
  email : string;
  username : string;
  password : string;
  confirmPassword : string;
  full_name : string;
}.

(** The body of [POST /auth/register]. *)
Record Registration := {
  reg_email : string;
  reg_username : string;
  reg_password : string;
  reg_full_name : JS.str;
}.

Inductive Submission :=
| Refused (toast : string)
| Submit (body : Registration).

Definition required_missing : string := "필수 항목을 모두 입력해주세요".
Definition password_mismatch : string := "비밀번호가 일치하지 않습니다".
Definition password_short : string := "비밀번호는 8자 이상이어야 합니다".
Definition username_short : string := "사용자명은 3자 이상이어야 합니다".

Section Validate.

(** [s.length]: the number of UTF-16 code units of a string. *)
Variable js_length : string -> Z.

Definition handleSubmit (formData : FormData) : Submission :=
  if String.eqb (email formData) "" || String.eqb (username formData) ""
     || String.eqb (password formData) "" then Refused required_missing
  else if negb (String.eqb (password formData) (confirmPassword formData))
  then Refused password_mismatch
  else if js_length (password formData) <? 8 then Refused password_short
  else if js_length (username formData) <? 3 then Refused username_short
  else Submit {| reg_email := email formData;
                 reg_username := username formData;
                 reg_password := password formData;
                 reg_full_name :=
                   if String.eqb (full_name formData) "" then None
                   else Some (full_name formData) |}.

End Validate.

End Register.

(** *** pages/NewScan.tsx, [handleSubmit] (lines 51-94) *)

Module NewScan.
Import Api Forms.

Record ScanType := { type_id : string; depth : Z }.

Definition scanTypes : list ScanType :=
  [ {| type_id := "quick"; depth := 1 |};
    {| type_id := "full"; depth := 3 |};
    {| type_id := "custom"; depth := 5 |} ].

(** The body of [POST /scans]. *)
Record ScanCreate := {
  target_url : string;
  scan_type : string;
  scan_depth : Z;
}.

(** What [toast.error] is handed: a string, or the raw [detail] of the
    response when that is not a string. *)
Inductive Content :=
| Text (s : string)
| Entries (items : list DetailItem)
| Object (message : JS.str).

(** How far a submission gets before anything is awaited. *)
Inductive Submission :=
| Refused (toast : string)        (* [toast.error(...)] and [return] *)
| Create (body : ScanCreate).     (* [scanAPI.create(body)] is issued *)

Definition url_missing : string := "URL을 입력해주세요".
Definition terms_missing : string := "이용약관에 동의해주세요".
Definition url_invalid : string := "유효한 URL을 입력해주세요".
Definition create_failed : string := "스캔 시작에 실패했습니다".

(** [targetUrl] (lines 65-68) *)
Definition targetUrl (url : string) : string :=
  if negb (JS.startsWith url "http://") && negb (JS.startsWith url "https://")
  then "https://" +:+ url
  else url.

(** [scanType === 'custom' ? customDepth : selectedType?.depth || 3] *)
Definition depth_of (scanType : string) (customDepth : Z) : Z :=
  if String.eqb scanType "custom" then customDepth
  else match List.find (fun t => String.eqb (type_id t) scanType) scanTypes with
       | Some t => if depth t =? 0 then 3 else depth t
       | None => 3
       end.

Section Submit.

(** [new URL(s)] returns rather than throws.  The URL parser is the
    browser's. *)
Variable URL_parses : string -> bool.

Definition handleSubmit (url : string) (agreed : bool)
    (scanType : string) (customDepth : Z) : Submission :=
  if String.eqb url "" then Refused url_missing
  else if negb agreed then Refused terms_missing
  else
    let targetUrl := targetUrl url in
    if negb (URL_parses targetUrl) then Refused url_invalid
    else Create {| target_url := targetUrl;
                   scan_type := scanType;
                   scan_depth := depth_of scanType customDepth |}.

End Submit.

(** The [catch] block around [scanAPI.create] (lines 88-90):
    [error.response?.data?.detail || '스캔 시작에 실패했습니다']. *)
Definition handleSubmit_catch (error : Caught) : list Content :=
  [ match detail_of error with
    | NoDetail => Text create_failed
    | DetailString s => if String.eqb s "" then Text create_failed else Text s
    | DetailList items => Entries items
    | DetailObject message => Object message
    end ].

End NewScan.

(* ===================================================================== *)
(** ** pages/ScanHistory.tsx                                               *)
(* ===================================================================== *)

Module ScanHistory.

(** [Math.ceil(total / 10)] (line 34) *)
Definition totalPages (total : Z) : Z := JS.ceil_div total 10.

(** The number on the button at index [i] (lines 120-129). *)
Definition pageNum (page totalPages i : Z) : Z :=
  if totalPages <=? 5 then i + 1
  else if page <=? 3 then i + 1
  else if page >=? totalPages - 2 then totalPages - 4 + i
  else page - 2 + i.

(** [[...Array(Math.min(5, totalPages))].map((_, i) => pageNum)] *)
Definition pageButtons (page totalPages : Z) : list Z :=
  map (fun i => pageNum page totalPages (Z.of_nat i))
      (seq 0 (Z.to_nat (Z.min 5 totalPages))).

(** What decides which branch of the list area is drawn: [isLoading] of
    the query (line 23) and [filteredScans] (lines 37-42). *)
Record Listing := {
  isLoading : bool;
  filteredScans : list Types.Scan;
}.

(** The pagination block on screen (lines 89-156).  While the query is
    loading the skeleton is drawn (line 89), and with no scan left to list
    the empty-state panel (lines 99, 157); the block sits under the scan
    cards, and only for [totalPages > 1] (line 108). *)
Definition pagination (v : Listing) (page totalPages : Z) : option (list Z) :=
  if isLoading v then None
  else if (0 <? length (filteredScans v))%nat then
    if 1 <? totalPages then Some (pageButtons page totalPages) else None
  else None.


(** [setPage(p => Math.max(1, p - 1))] *)
Definition previous (page : Z) : Z := Z.max 1 (page - 1).

(** [setPage(p => Math.min(totalPages, p + 1))] *)
Definition next (totalPages page : Z) : Z := Z.min totalPages (page + 1).



(** The buttons drawn as the current page ([page === pageNum]). *)
Definition highlighted (page totalPages : Z) : list Z :=
  filter (fun n => page = n) (pageButtons page totalPages).

End ScanHistory.

(* ===================================================================== *)
(** ** components/ScanCard.tsx                                             *)
(* ===================================================================== *)

Module ScanCard.
Import Types.

(** The line under the target of a scan (lines 39-71): nothing unless
    the scan is completed; then either the counts that are positive, each
    with its label, or the no-findings text. *)
Inductive Summary :=
| NoSummary
| Counts (shown : list (Z * string))
| NothingFound.          (* "취약점이 발견되지 않았습니다" *)

Definition summary (scan : Scan) : Summary :=
  let hasVulnerabilities := 0 <? total_vulnerabilities scan in
  if bool_decide (status scan = completed) then
    if hasVulnerabilities then
      Counts
        ((if 0 <? critical_count scan then [(critical_count scan, "Critical")] else []) ++
         (if 0 <? high_count scan then [(high_count scan, "High")] else []) ++
         (if 0 <? medium_count scan then [(medium_count scan, "Medium")] else []) ++
         (if 0 <? low_count scan then [(low_count scan, "Low")] else []))
    else NothingFound
  else NoSummary.

End ScanCard.

(* ===================================================================== *)
(** ** pages/Dashboard.tsx                                                 *)
(* ===================================================================== *)

Module Dashboard.
Import Types.

(** [scans.filter(s => s.status === 'completed')] *)
Definition completedScans (scans : list Scan) : list Scan :=
  filter (fun s => status s = completed) scans.

(** [l.reduce((acc, s) => acc + f(s), 0)] *)
Definition reduce_sum (f : Scan -> Z) (l : list Scan) : Z :=
  foldl (fun acc s => acc + f s) 0 l.

Definition totalVulnerabilities (scans : list Scan) : Z :=
  reduce_sum total_vulnerabilities (completedScans scans).

Definition criticalCount (scans : list Scan) : Z :=
  reduce_sum critical_count (completedScans scans).

Definition highCount (scans : list Scan) : Z :=
  reduce_sum high_count (completedScans scans).

Record Slice := { name : string; value : Z; color : string }.

(** [severityColors] *)
Definition color_of (sev : Severity) : string :=
  match sev with
  | critical => "#FF4757"
  | high => "#FF6B35"
  | medium => "#FFA502"
  | low => "#2ED573"
  | info => "#00D4AA"
  end.

(** The five slices before the filter. *)
Definition slices (scans : list Scan) : list Slice :=
  [ {| name := "Critical"; value := criticalCount scans; color := color_of critical |};
    {| name := "High"; value := highCount scans; color := color_of high |};
    {| name := "Medium";
       value := reduce_sum medium_count (completedScans scans);
       color := color_of medium |};
    {| name := "Low";
       value := reduce_sum low_count (completedScans scans);
       color := color_of low |};
    {| name := "Info";
       value := reduce_sum info_count (completedScans scans);
       color := color_of info |} ].

(** [pieData]: [[...].filter(d => d.value > 0)] *)
Definition pieData (scans : list Scan) : list Slice :=
  filter (fun d => 0 < value d) (slices scans).

Record Stat := { label : string; stat_value : Z }.

(** The four cards; [totalScans] is [data?.total || 0]. *)
Definition stats (totalScans : Z) (scans : list Scan) : list Stat :=
  [ {| label := "총 스캔"; stat_value := totalScans |};
    {| label := "발견된 취약점"; stat_value := totalVulnerabilities scans |};
    {| label := "Critical/High";
       stat_value := criticalCount scans + highCount scans |};
    {| label := "완료된 스캔";
       stat_value := Z.of_nat (length (completedScans scans)) |} ].

End Dashboard.

(* ===================================================================== *)
(** ** App.tsx                                                             *)
(* ===================================================================== *)

Module App.

Inductive Page :=
| Landing
| Login
| Register
| Dashboard
| NewScan
| ScanDetail (id : string)
| ScanHistory.

(** What a route renders: a page, inside [Layout] or not, or a
    [<Navigate to=... replace />]. *)
Inductive Element :=
| Show (page : Page) (layout : bool)
| Navigate (to : list string).

(** [ProtectedRoute] (lines 13-21) *)
Definition ProtectedRoute (isAuthenticated : bool) (children : Element) : Element :=
  if negb isAuthenticated then Navigate ["login"] else children.

(** [PublicRoute] (lines 24-32) *)
Definition PublicRoute (isAuthenticated : bool) (children : Element) : Element :=
  if isAuthenticated then Navigate ["dashboard"] else children.

(** [<Routes>] (lines 36-100) on a location given by the segments of its
    path.  The router compares segments without regard to case and
    prefers the static [/scan/new] to the pattern [/scan/:id]. *)
Definition Routes (isAuthenticated : bool) (path : list string) : Element :=
  let eq := JS.same_ignoring_case in
  match path with
  | [] => Show Landing false
  | [a] =>
      if eq a "login" then PublicRoute isAuthenticated (Show Login false)
      else if eq a "register" then PublicRoute isAuthenticated (Show Register false)
      else if eq a "dashboard" then ProtectedRoute isAuthenticated (Show Dashboard true)
      else if eq a "history" then ProtectedRoute isAuthenticated (Show ScanHistory true)
      else Navigate []
  | [a; b] =>
      if eq a "scan" then
        if eq b "new" then ProtectedRoute isAuthenticated (Show NewScan true)
        else ProtectedRoute isAuthenticated (Show (ScanDetail b) true)
      else Navigate []
  | _ => Navigate []
  end.

(** Following the redirects from a location until a page shows. *)
Fixpoint visit (fuel : nat) (isAuthenticated : bool) (path : list string)
    : option (Page * bool) :=
  match fuel with
  | O => None
  | S fuel =>
      match Routes isAuthenticated path with
      | Show page layout => Some (page, layout)
      | Navigate to => visit fuel isAuthenticated to
      end
  end.

(** The pages behind [ProtectedRoute]. *)
Definition protected (page : Page) : bool :=
  match page with
  | Dashboard | NewScan | ScanDetail _ | ScanHistory => true
  | Landing | Login | Register => false
  end.

End App.

(* ===================================================================== *)
(** ** Sample data                                                         *)
(* ===================================================================== *)

Module Fixtures.
Import Api.

Definition empty_body : Body :=
  {| detail := NoDetail; access_token := None; refresh_token := None |}.

Definition ok : Response := {| status := 200; data := empty_body |}.

Definition unauthorized : Response :=
  {| status := 401;
     data := {| detail := DetailString "Could not validate credentials";
                access_token := None; refresh_token := None |} |}.

Definition refresh_denied : Response :=
  {| status := 403;
     data := {| detail := DetailString "Invalid refresh token";
                access_token := None; refresh_token := None |} |}.

Definition tokens_issued : Response :=
  {| status := 200;
     data := {| detail := NoDetail;
                access_token := Some "access-2";
                refresh_token := Some "refresh-2" |} |}.

Definition get_scans : Config :=
  {| url := "/scans"; method := "get";
     headers := {[ "Content-Type" := "application/json" ]};
     _retry := false |}.

Definition session : AuthStore.State :=
  {| AuthStore.user := None;
     AuthStore.accessToken := Some "access-1";
     AuthStore.refreshToken := Some "refresh-1" |}.

Definition logged_out : AuthStore.State :=
  {| AuthStore.user := None;
     AuthStore.accessToken := None;
     AuthStore.refreshToken := None |}.

Definition world (replies : list Reply) : World :=
  {| store := session; wire := replies; log := [] |}.

Definition scan_in (st : Types.ScanStatus) : Types.Scan :=
  {| Types.id := 7;
     Types.target_url := "https://example.com";
     Types.target_domain := "example.com";
     Types.scan_type := "full";
     Types.scan_depth := 3;
     Types.status := st;
     Types.progress := 40;
     Types.total_vulnerabilities := 0;
     Types.critical_count := 0;
     Types.high_count := 0;
     Types.medium_count := 0;
     Types.low_count := 0;
     Types.info_count := 0;
     Types.error_message := None;
     Types.started_at := None;
     Types.completed_at := None;
     Types.created_at := "2024-01-01T00:00:00" |}.

(** A 422 whose [detail] is the list [items]. *)
Definition validation_error (items : list DetailItem) : Forms.Caught :=
  {| Forms.response :=
       Some {| status := 422;
               data := {| detail := DetailList items;
                          access_token := None; refresh_token := None |} |};
     Forms.request := true;
     Forms.message := Some "Request failed with status code 422" |}.

End Fixtures.

(* ===================================================================== *)
(** ** More sample data                                                    *)
(* ===================================================================== *)

Module Samples.
Import Api.

Definition server_error : Response :=
  {| status := 500;
     data := {| detail := DetailString "Internal Server Error";
                access_token := None; refresh_token := None |} |}.

(** A client that holds no tokens. *)
Definition signed_out (replies : list Reply) : World :=
  {| store := Fixtures.logged_out; wire := replies; log := [] |}.

(** A [login] action for the session store: it keeps the user it has and
    takes the tokens. *)
Definition login_action (_ : Body) (access refresh : JS.str)
    (s : AuthStore.State) : AuthStore.State :=
  {| AuthStore.user := AuthStore.user s;
     AuthStore.accessToken := access;
     AuthStore.refreshToken := refresh |}.

(** A completed scan with two findings, both of severity info. *)
Definition info_only : Types.Scan :=
  {| Types.id := 8;
     Types.target_url := "https://example.org";
     Types.target_domain := "example.org";
     Types.scan_type := "quick";
     Types.scan_depth := 1;
     Types.status := Types.completed;
     Types.progress := 100;
     Types.total_vulnerabilities := 2;
     Types.critical_count := 0;
     Types.high_count := 0;
     Types.medium_count := 0;
     Types.low_count := 0;
     Types.info_count := 2;
     Types.error_message := None;
     Types.started_at := Some "2024-01-01T00:00:00";
     Types.completed_at := Some "2024-01-01T00:02:00";
     Types.created_at := "2024-01-01T00:00:00" |}.

Definition new_user : Register.FormData :=
  {| Register.email := "a@example.com";
     Register.username := "alice";
     Register.password := "correct horse";
     Register.confirmPassword := "correct horse";
     Register.full_name := "" |}.

(** The length of a string of ASCII characters. *)
Definition ascii_length (s : string) : Z := Z.of_nat (String.length s).

End Samples.

(* ===================================================================== *)
(** * Properties                                                           *)
(* ===================================================================== *)

(** ** The API client *)

Section ApiFacts.
Import Api.

Variable setTokens : JS.str -> JS.str -> AuthStore.State -> AuthStore.State.
Variable logout : AuthStore.State -> AuthStore.State.

Ltac tidy := cbn [store wire log]; rewrite <- ?app_assoc; cbn [app].

Lemma receive_eq (w : World) :
  receive w = Some (reply_at 0 w,
                    {| store := store w; wire := tail (wire w); log := log w |}).
Proof.
  unfold receive, reply_at. destruct w as [s [|r rest] l]; reflexivity.
Qed.

Lemma dispatch_eq (c : Config) (w : World) :
  dispatch c w = Some (settle c (reply_at 0 w), sent c w).
Proof.
  unfold dispatch, bind, emit, ret. rewrite receive_eq. reflexivity.
Qed.

Lemma post_refresh_eq (rt : string) (w : World) :
  post_refresh rt w =
  Some (settle refresh_config (reply_at 0 w),
        {| store := store w; wire := tail (wire w);
           log := log w ++ [PostRefresh rt] |}).
Proof.
  unfold post_refresh, bind, emit, ret. rewrite receive_eq. reflexivity.
Qed.

Lemma retry_with_bearer (s : AuthStore.State) (c : Config) :
  _retry (with_bearer s c) = _retry c.
Proof. unfold with_bearer. destruct (JS.truthy _); reflexivity. Qed.

Lemma settle_rejected_config (c : Config) (r : Reply) (e : AxiosError) :
  settle c r = Rejected e -> config e = c.
Proof.
  unfold settle. destruct r as [resp|]; [destruct (validateStatus _)|];
    intros [= <-]; reflexivity.
Qed.

Lemma api_step (n : nat) (c : Config) (w : World) :
  api setTokens logout (S n) c w =
  let c1 := with_bearer (store w) c in
  match settle c1 (reply_at 0 w) with
  | Resolved resp => Some (Resolved resp, sent c1 w)
  | Rejected e => on_rejected setTokens logout (api setTokens logout n) e (sent c1 w)
  end.
Proof.
  cbn [api]. unfold request_interceptor, bind at 1 2, getState, ret at 1.
  unfold bind. rewrite dispatch_eq.
  destruct (settle _ _); reflexivity.
Qed.

(** A request that already carries the mark is sent once and its outcome
    is handed to the caller as it is. *)
Lemma api_marked (n : nat) (c : Config) (w : World) :
  _retry c = true ->
  api setTokens logout (S n) c w =
  Some (settle (with_bearer (store w) c) (reply_at 0 w),
        sent (with_bearer (store w) c) w).
Proof.
  intros Hc. rewrite api_step. cbn zeta.
  destruct (settle _ _) as [resp|e] eqn:Hs; [reflexivity|].
  unfold on_rejected.
  rewrite (settle_rejected_config _ _ _ Hs), retry_with_bearer, Hc.
  rewrite andb_false_r. reflexivity.
Qed.

(** [error.response?.status === 401 && !originalRequest._retry], read off
    the request and its reply. *)
Lemma is_401_settle (c : Config) (r : Response) :
  status r = 401 ->
  settle c (Http r) = Rejected {| config := c; response := Some r |}.
Proof. intros H. unfold settle. rewrite H. reflexivity. Qed.

Lemma api_passthrough (n : nat) (c : Config) (w : World) :
  (forall r, reply_at 0 w = Http r -> status r = 401 -> _retry c = true) ->
  api setTokens logout (S n) c w =
  Some (settle (with_bearer (store w) c) (reply_at 0 w),
        sent (with_bearer (store w) c) w).
Proof.
  intros H. rewrite api_step. cbn zeta.
  destruct (settle _ _) as [resp|e] eqn:Hs; [reflexivity|].
  unfold on_rejected. rewrite (settle_rejected_config _ _ _ Hs), retry_with_bearer.
  replace (is_401 e && negb (_retry c)) with false; [reflexivity|].
  symmetry. apply andb_false_iff.
  unfold settle in Hs. destruct (reply_at 0 w) as [r|] eqn:Hr.
  - destruct (validateStatus (status r)); [discriminate|].
    injection Hs as <-. unfold is_401. cbn.
    destruct (Z.eqb_spec (status r) 401) as [E|]; [|by left].
    right. rewrite (H r eq_refl E). reflexivity.
  - injection Hs as <-. by left.
Qed.

Lemma api_no_refresh_token (n : nat) (c : Config) (w : World) (r1 : Response) :
  reply_at 0 w = Http r1 -> status r1 = 401 -> _retry c = false ->
  JS.truthy (AuthStore.refreshToken (store w)) = false ->
  let c1 := with_bearer (store w) c in
  api setTokens logout (S n) c w =
  Some (Rejected {| config := set_retry c1; response := Some r1 |},
        {| store := logout (store w); wire := tail (wire w);
           log := log w ++ [Send c1; MarkRetried; Logout] |}).
Proof.
  intros Hr H401 Hc Hrt c1. rewrite api_step. cbn zeta. fold c1.
  rewrite Hr, (is_401_settle _ _ H401).
  unfold on_rejected, is_401. cbn [config response].
  unfold c1 at 1. rewrite retry_with_bearer, Hc, H401. cbn [Z.eqb Pos.eqb andb negb].
  unfold bind, emit, getState, update_store, ret, sent. cbn [store wire log].
  rewrite Hrt. tidy. reflexivity.
Qed.

Lemma api_refresh_fails (n : nat) (c : Config) (w : World) (r1 : Response)
    (e : AxiosError) :
  reply_at 0 w = Http r1 -> status r1 = 401 -> _retry c = false ->
  JS.truthy (AuthStore.refreshToken (store w)) = true ->
  settle refresh_config (reply_at 1 w) = Rejected e ->
  let c1 := with_bearer (store w) c in
  api setTokens logout (S n) c w =
  Some (Rejected {| config := set_retry c1; response := Some r1 |},
        {| store := logout (store w); wire := tail (tail (wire w));
           log := log w ++ [Send c1; MarkRetried;
                            PostRefresh (JS.interpolate (AuthStore.refreshToken (store w)));
                            Logout] |}).
Proof.
  intros Hr H401 Hc Hrt Hfail c1. rewrite api_step. cbn zeta. fold c1.
  rewrite Hr, (is_401_settle _ _ H401).
  unfold on_rejected, is_401. cbn [config response].
  unfold c1 at 1. rewrite retry_with_bearer, Hc, H401. cbn [Z.eqb Pos.eqb andb negb].
  unfold bind at 1 2, emit at 1, getState, sent. cbn [store wire log].
  rewrite Hrt. unfold bind at 1. rewrite post_refresh_eq. cbn [store wire log].
  replace (reply_at 0 _) with (reply_at 1 w)
    by (unfold reply_at; cbn [wire]; destruct (wire w); reflexivity).
  rewrite Hfail.
  unfold bind, emit, update_store, ret. tidy. reflexivity.
Qed.

Lemma api_refreshed (n : nat) (c : Config) (w : World) (r1 resp : Response) :
  reply_at 0 w = Http r1 -> status r1 = 401 -> _retry c = false ->
  JS.truthy (AuthStore.refreshToken (store w)) = true ->
  settle refresh_config (reply_at 1 w) = Resolved resp ->
  let c1 := with_bearer (store w) c in
  let a := access_token (data resp) in
  let r := refresh_token (data resp) in
  let s' := setTokens a r (store w) in
  let c2 := with_bearer s'
              (set_header "Authorization" ("Bearer " +:+ JS.interpolate a)
                 (set_retry c1)) in
  api setTokens logout (S (S n)) c w =
  Some (settle c2 (reply_at 2 w),
        {| store := s'; wire := tail (tail (tail (wire w)));
           log := log w ++ [Send c1; MarkRetried;
                            PostRefresh (JS.interpolate (AuthStore.refreshToken (store w)));
                            SetTokens a r; Send c2] |}).
Proof.
  intros Hr H401 Hc Hrt Hok c1 a r s' c2. rewrite api_step. cbn zeta. fold c1.
  rewrite Hr, (is_401_settle _ _ H401).
  unfold on_rejected, is_401. cbn [config response].
  unfold c1 at 1. rewrite retry_with_bearer, Hc, H401. cbn [Z.eqb Pos.eqb andb negb].
  unfold bind at 1 2, emit at 1, getState, sent. cbn [store wire log].
  rewrite Hrt. unfold bind at 1. rewrite post_refresh_eq. cbn [store wire log].
  replace (reply_at 0 _) with (reply_at 1 w)
    by (unfold reply_at; cbn [wire]; destruct (wire w); reflexivity).
  rewrite Hok.
  unfold bind at 1 2, emit at 1, update_store. cbn [store wire log].
  rewrite api_marked by reflexivity. cbn [store]. fold a r s' c2.
  unfold sent. cbn [store wire log].
  replace (reply_at 0 _) with (reply_at 2 w)
    by (unfold reply_at; cbn [wire]; destruct (wire w) as [|? [|? ?]]; reflexivity).
  tidy. reflexivity.
Qed.

Lemma refreshes_cons (e : Event) (l : list Event) :
  refreshes (e :: l) = ((if is_refresh e then 1 else 0) + refreshes l)%nat.
Proof.
  unfold refreshes. rewrite filter_cons.
  destruct (is_refresh e); case_decide; try congruence; reflexivity.
Qed.

Ltac count_log := rewrite ?refreshes_cons; cbn; lia.

Ltac split_log :=
  repeat match goal with
         | H : _ = ?b ++ _ :: _ |- _ => destruct b; simplify_eq/=
         end.

(** C1.  Whatever the backend answers, a call of the client sends the
    request at most twice (the original and one retry) and makes at most
    one refresh call, and it always returns.  Every refresh call comes
    after the request was marked; a first 401 on an unmarked request is
    followed at once by the mark.  When a retry went out it carries the
    mark, it is the last effect of the call, and a 401 answer to it is
    rejected to the caller as it is. *)
Theorem retry_at_most_once (c : Config) (w : World) (n : nat) :
  exists result w' events,
    api setTokens logout (2 + n) c w = Some (result, w') /\
    log w' = log w ++ events /\
    (length (sends events) <= 2)%nat /\
    (refreshes events <= 1)%nat /\
    marked_before_refresh events /\
    (forall r1, reply_at 0 w = Http r1 -> status r1 = 401 -> _retry c = false ->
       exists c1 rest, events = Send c1 :: MarkRetried :: rest) /\
    (forall c1 c2, sends events = [c1; c2] ->
       _retry c2 = true /\
       last events = Some (Send c2) /\
       forall r2, reply_at 2 w = Http r2 -> status r2 = 401 ->
         result = Rejected {| config := c2; response := Some r2 |}).
Proof.
  cbn [Nat.add].
  destruct (reply_at 0 w) as [r1|] eqn:Hr; cycle 1.
  { rewrite api_passthrough by (intros r; rewrite Hr; discriminate).
    eexists _, _, _. split; [reflexivity|]. split; [reflexivity|].
    split; [count_log|]. split; [count_log|].
    split; [intros before rt after H; split_log|].
    split; [discriminate|]. cbn. discriminate. }
  destruct (Z.eq_dec (status r1) 401) as [H401|Hne]; cycle 1.
  { rewrite api_passthrough
      by (intros r; rewrite Hr; intros [= <-]; contradiction).
    eexists _, _, _. split; [reflexivity|]. split; [reflexivity|].
    split; [count_log|]. split; [count_log|].
    split; [intros before rt after H; split_log|].
    split; [intros r [= <-]; contradiction|]. cbn. discriminate. }
  destruct (_retry c) eqn:Hc.
  { rewrite api_marked by assumption.
    eexists _, _, _. split; [reflexivity|]. split; [reflexivity|].
    split; [count_log|]. split; [count_log|].
    split; [intros before rt after H; split_log|].
    split; [discriminate|]. cbn. discriminate. }
  destruct (JS.truthy (AuthStore.refreshToken (store w))) eqn:Hrt; cycle 1.
  { rewrite (api_no_refresh_token _ _ _ r1) by assumption.
    eexists _, _, _. split; [reflexivity|]. split; [reflexivity|].
    split; [count_log|]. split; [count_log|].
    split; [intros before rt after H; split_log|].
    split; [eauto|]. cbn. discriminate. }
  destruct (settle refresh_config (reply_at 1 w)) as [resp|e] eqn:Hs; cycle 1.
  { rewrite (api_refresh_fails _ _ _ r1 e) by assumption.
    eexists _, _, _. split; [reflexivity|]. split; [reflexivity|].
    split; [count_log|]. split; [count_log|].
    split; [intros before rt after H; split_log; set_solver|].
    split; [eauto|]. cbn. discriminate. }
  rewrite (api_refreshed _ _ _ r1 resp) by assumption.
  eexists _, _, _. split; [reflexivity|]. split; [reflexivity|].
  split; [count_log|]. split; [count_log|].
  split; [intros before rt after H; split_log; set_solver|].
  split; [eauto|]. cbn. intros c1 c2 [= <- <-].
  split; [apply retry_with_bearer|]. split; [reflexivity|].
  intros r2 -> H2. apply is_401_settle, H2.
Qed.

(** The first effect of any call is the request itself, as the request
    interceptor left it. *)
Lemma api_first_send (c : Config) (w : World) (n : nat) :
  exists result w' more,
    api setTokens logout (2 + n) c w = Some (result, w') /\
    log w' = log w ++ Send (with_bearer (store w) c) :: more.
Proof.
  cbn [Nat.add].
  destruct (reply_at 0 w) as [r1|] eqn:Hr; cycle 1.
  { rewrite api_passthrough by (intros r; rewrite Hr; discriminate). eauto 6. }
  destruct (Z.eq_dec (status r1) 401) as [H401|Hne]; cycle 1.
  { rewrite api_passthrough
      by (intros r; rewrite Hr; intros [= <-]; contradiction). eauto 6. }
  destruct (_retry c) eqn:Hc.
  { rewrite api_marked by assumption. eauto 6. }
  destruct (JS.truthy (AuthStore.refreshToken (store w))) eqn:Hrt; cycle 1.
  { rewrite (api_no_refresh_token _ _ _ r1) by assumption. eauto 6. }
  destruct (settle refresh_config (reply_at 1 w)) as [resp|e] eqn:Hs; cycle 1.
  { rewrite (api_refresh_fails _ _ _ r1 e) by assumption. eauto 6. }
  rewrite (api_refreshed _ _ _ r1 resp) by assumption. eauto 6.
Qed.

(** Two units of fuel are as good as any larger amount. *)
Lemma api_fuel_enough (c : Config) (w : World) (n : nat) :
  api setTokens logout (2 + n) c w = api setTokens logout 2 c w.
Proof.
  cbn [Nat.add].
  destruct (reply_at 0 w) as [r1|] eqn:Hr; cycle 1.
  { rewrite !api_passthrough by (intros r; rewrite Hr; discriminate). done. }
  destruct (Z.eq_dec (status r1) 401) as [H401|Hne]; cycle 1.
  { rewrite !api_passthrough
      by (intros r; rewrite Hr; intros [= <-]; contradiction). done. }
  destruct (_retry c) eqn:Hc.
  { rewrite !api_marked by assumption. done. }
  destruct (JS.truthy (AuthStore.refreshToken (store w))) eqn:Hrt; cycle 1.
  { rewrite !(api_no_refresh_token _ _ _ r1) by assumption. done. }
  destruct (settle refresh_config (reply_at 1 w)) as [resp|e] eqn:Hs; cycle 1.
  { rewrite !(api_refresh_fails _ _ _ r1 e) by assumption. done. }
  rewrite !(api_refreshed _ _ _ r1 resp) by assumption. done.
Qed.

Lemma truthy_Some (s : string) : s <> "" -> JS.truthy (Some s) = true.
Proof.
  intros H. unfold JS.truthy. destruct (String.eqb_spec s ""); [contradiction | reflexivity].
Qed.

Lemma with_bearer_present (s : AuthStore.State) (c : Config) (tok : string) :
  AuthStore.accessToken s = Some tok -> tok <> "" ->
  authorization (with_bearer s c) = Some ("Bearer " +:+ tok).
Proof.
  intros Hs Htok. unfold with_bearer, authorization.
  rewrite Hs, (truthy_Some _ Htok). cbn. apply lookup_insert_eq.
Qed.


Lemma with_bearer_rest (s : AuthStore.State) (c : Config) :
  url (with_bearer s c) = url c /\
  method (with_bearer s c) = method c /\
  _retry (with_bearer s c) = _retry c /\
  forall h, h <> "Authorization" -> headers (with_bearer s c) !! h = headers c !! h.
Proof.
  unfold with_bearer. destruct (JS.truthy _); cbn; repeat split; try reflexivity.
  intros h Hh. by rewrite lookup_insert_ne.
Qed.

End ApiFacts.

Section StoreFacts.
Import Api.


(** C2.  A fresh request is answered 401 while the store holds a refresh
    token, and the refresh call succeeds with the pair [a'], [r'].  Then
    [a'] and [r'] are in the store afterwards, the original request goes
    out exactly once more, with [Authorization: Bearer a'] and otherwise
    as before, its outcome is the outcome of the call, and (for a
    non-empty [a']) any later call sends its request with
    [Authorization: Bearer a']. *)
Theorem refresh_persists_and_retries_once (c : Config) (w : World) (n : nat)
    (r1 resp : Response) (rt a' r' : string) (rest : list Reply) :
  _retry c = false ->
  wire w = Http r1 :: Http resp :: rest ->
  status r1 = 401 ->
  AuthStore.refreshToken (store w) = Some rt -> rt <> "" ->
  validateStatus (status resp) = true ->
  access_token (data resp) = Some a' ->
  refresh_token (data resp) = Some r' ->
  exists result w' c1 c2,
    api AuthStore.setTokens AuthStore.logout (2 + n) c w = Some (result, w') /\
    AuthStore.accessToken (store w') = Some a' /\
    AuthStore.refreshToken (store w') = Some r' /\
    log w' = log w ++ [Send c1; MarkRetried; PostRefresh rt;
                       SetTokens (Some a') (Some r'); Send c2] /\
    authorization c2 = Some ("Bearer " +:+ a') /\
    url c2 = url c /\ method c2 = method c /\
    (forall h, h <> "Authorization" -> headers c2 !! h = headers c !! h) /\
    result = settle c2 (hd NetworkError rest) /\
    (a' <> "" ->
     forall c' m, exists result' w'' c1' more,
       api AuthStore.setTokens AuthStore.logout (2 + m) c' w' = Some (result', w'') /\
       log w'' = log w' ++ Send c1' :: more /\
       authorization c1' = Some ("Bearer " +:+ a')).
Proof.
  intros Hc Hwire H401 Hrt Hne Hok Ha Hr.
  assert (reply_at 0 w = Http r1) as H0 by (unfold reply_at; rewrite Hwire; done).
  assert (settle refresh_config (reply_at 1 w) = Resolved resp) as H1.
  { unfold reply_at. rewrite Hwire. cbn. rewrite Hok. done. }
  assert (JS.truthy (AuthStore.refreshToken (store w)) = true) as Ht
    by (rewrite Hrt; apply truthy_Some, Hne).
  cbn [Nat.add].
  rewrite (api_refreshed _ _ _ _ _ r1 resp H0 H401 Hc Ht H1).
  rewrite Ha, Hr, Hrt. cbn [JS.interpolate].
  set (s' := AuthStore.setTokens (Some a') (Some r') (store w)).
  set (c1 := with_bearer (store w) c).
  set (c2' := set_header "Authorization" ("Bearer " +:+ a') (set_retry c1)).
  eexists _, _, c1, (with_bearer s' c2').
  split; [reflexivity|]. cbn [store log].
  split; [reflexivity|]. split; [reflexivity|]. split; [reflexivity|].
  assert (authorization (with_bearer s' c2') = Some ("Bearer " +:+ a')) as Hauth.
  { unfold with_bearer, authorization. cbn.
    destruct (negb _); cbn; apply lookup_insert_eq. }
  split; [exact Hauth|].
  destruct (with_bearer_rest s' c2') as (-> & -> & _ & Hh2).
  destruct (with_bearer_rest (store w) c) as (Hu & Hm & _ & Hh1).
  split; [exact Hu|]. split; [exact Hm|].
  split.
  { intros h Hh. rewrite (Hh2 h Hh). unfold c2'. cbn.
    rewrite lookup_insert_ne by done. apply Hh1, Hh. }
  split.
  { unfold reply_at. rewrite Hwire. cbn. destruct rest; reflexivity. }
  intros Hane c' m.
  match goal with |- context [api _ _ _ c' ?W] => set (w' := W) end.
  destruct (api_first_send AuthStore.setTokens AuthStore.logout c' w' m)
    as (result' & w'' & more & Hrun & Hlog).
  exists result', w'', (with_bearer (store w') c'), more.
  split; [exact Hrun|]. split; [exact Hlog|].
  apply with_bearer_present; [reflexivity | exact Hane].
Qed.


Lemma settle_fails (c : Config) (r : Reply) :
  succeeds r = false -> exists e, settle c r = Rejected e.
Proof.
  unfold succeeds, settle. destruct r as [resp|]; [|eauto].
  intros ->. eauto.
Qed.

(** C3.  A fresh request is answered 401 and either the store holds no
    refresh token or the refresh call fails.  Then the call is rejected
    with the 401 response of that request (and its configuration, now
    marked), the session is emptied, the request was sent once, and the
    logout is the last effect. *)
Theorem failed_refresh_logs_out (c : Config) (w : World) (n : nat) (r1 : Response) :
  _retry c = false ->
  reply_at 0 w = Http r1 ->
  status r1 = 401 ->
  JS.truthy (AuthStore.refreshToken (store w)) = false \/
  succeeds (reply_at 1 w) = false ->
  exists e w' events,
    api AuthStore.setTokens AuthStore.logout (2 + n) c w = Some (Rejected e, w') /\
    response e = Some r1 /\
    config e = set_retry (with_bearer (store w) c) /\
    store w' = {| AuthStore.user := None; AuthStore.accessToken := None;
                  AuthStore.refreshToken := None |} /\
    log w' = log w ++ events /\
    sends events = [with_bearer (store w) c] /\
    last events = Some Logout.
Proof.
  intros Hc H0 H401 Hcase. cbn [Nat.add].
  destruct (JS.truthy (AuthStore.refreshToken (store w))) eqn:Hrt; cycle 1.
  { rewrite (api_no_refresh_token _ _ _ _ _ r1) by assumption.
    eexists _, _, _. repeat (split; [reflexivity|]). reflexivity. }
  destruct Hcase as [|Hfail]; [discriminate|].
  destruct (settle_fails refresh_config _ Hfail) as [e He].
  rewrite (api_refresh_fails _ _ _ _ _ r1 e) by assumption.
  eexists _, _, _. repeat (split; [reflexivity|]). reflexivity.
Qed.

End StoreFacts.

(** *** The theorems at work on sample runs *)

Section ApiRuns.
Import Api Fixtures.

(** A 401, a successful refresh, and 401s from then on: the retried
    request is rejected with the second 401, one 401 is left unread. *)
Lemma retry_at_most_once_witness :
  exists c2 w',
    api AuthStore.setTokens AuthStore.logout 2 get_scans
      (world [Http unauthorized; Http tokens_issued;
              Http unauthorized; Http unauthorized]) =
      Some (Rejected {| config := c2; response := Some unauthorized |}, w') /\
    _retry c2 = true /\
    last (log w') = Some (Send c2) /\
    length (sends (log w')) = 2%nat /\
    wire w' = [Http unauthorized].
Proof.
  set (w := world [Http unauthorized; Http tokens_issued;
                   Http unauthorized; Http unauthorized]).
  destruct (retry_at_most_once AuthStore.setTokens AuthStore.logout get_scans w 0)
    as (result & w' & events & Hrun & Hlog & _ & _ & _ & _ & Hsecond).
  change (2 + 0)%nat with 2%nat in Hrun.
  destruct (api AuthStore.setTokens AuthStore.logout 2 get_scans w)
    as [[result0 w0]|] eqn:Hv; [|discriminate].
  vm_compute in Hv. injection Hv as <- <-. injection Hrun as <- <-.
  cbn in Hlog. subst events.
  destruct (Hsecond _ _ eq_refl) as (Hmark & Hlast & Hrej).
  eexists _, _. split; [reflexivity|].
  split; [exact Hmark|]. split; [exact Hlast|]. split; reflexivity.
Defined.



(** An expired access token and a valid refresh token: one refresh call,
    one retried call, and the caller gets the answer. *)
Lemma refresh_persists_and_retries_once_witness :
  exists w' c1 c2,
    api AuthStore.setTokens AuthStore.logout 2 get_scans
      (world [Http unauthorized; Http tokens_issued; Http ok]) =
      Some (Resolved ok, w') /\
    AuthStore.accessToken (store w') = Some "access-2" /\
    AuthStore.refreshToken (store w') = Some "refresh-2" /\
    log w' = [Send c1; MarkRetried; PostRefresh "refresh-1";
              SetTokens (Some "access-2") (Some "refresh-2"); Send c2] /\
    authorization c1 = Some "Bearer access-1" /\
    authorization c2 = Some "Bearer access-2".
Proof.
  destruct (refresh_persists_and_retries_once get_scans
              (world [Http unauthorized; Http tokens_issued; Http ok]) 0
              unauthorized tokens_issued "refresh-1" "access-2" "refresh-2"
              [Http ok])
    as (result & w' & c1 & c2 & Hrun & Ha & Hr & Hlog & Hauth & _ & _ & _ & Hres & _);
    try reflexivity; try discriminate.
  exists w', c1, c2.
  change (2 + 0)%nat with 2%nat in Hrun.
  assert (authorization c1 = Some "Bearer access-1") as Hc1.
  { destruct (api AuthStore.setTokens AuthStore.logout 2 get_scans _)
      as [[result0 w0]|] eqn:Hv in Hrun; [|discriminate].
    vm_compute in Hv. injection Hv as <- <-. injection Hrun as _ <-.
    cbn in Hlog. injection Hlog as <- _. reflexivity. }
  split; [rewrite Hrun, Hres; subst; reflexivity|].
  repeat (split; [assumption|]). assumption.
Defined.

(** An expired access token and a refresh token the backend turns down:
    the caller gets the 401, not the 403, and the session is gone. *)
Lemma failed_refresh_logs_out_witness :
  exists e w',
    api AuthStore.setTokens AuthStore.logout 2 get_scans
      (world [Http unauthorized; Http refresh_denied]) =
      Some (Rejected e, w') /\
    response e = Some unauthorized /\
    store w' = logged_out /\
    last (log w') = Some Logout.
Proof.
  destruct (failed_refresh_logs_out get_scans
              (world [Http unauthorized; Http refresh_denied]) 0 unauthorized)
    as (e & w' & events & Hrun & Hresp & _ & Hstore & Hlog & _ & Hlast);
    try reflexivity.
  { right. reflexivity. }
  exists e, w'. cbn in Hlog.
  split; [exact Hrun|]. split; [exact Hresp|]. split; [exact Hstore|].
  rewrite Hlog. exact Hlast.
Defined.

End ApiRuns.

(** ** The scan view *)

Section PollingFacts.
Import Types ScanDetail.

Lemma refetchInterval_terminal (s : Scan) :
  refetchInterval (Some s) = if terminal (status s) then None else Some 3000.
Proof. unfold refetchInterval. destruct (status s); reflexivity. Qed.

Lemma enabled_completed (scan : option Scan) :
  enabled scan = true <-> exists s, scan = Some s /\ status s = completed.
Proof.
  unfold enabled. destruct scan as [s|].
  - rewrite bool_decide_eq_true. split; [eauto | by intros (? & [= <-] & ?)].
  - split; [done | by intros (? & ? & ?)].
Qed.

Lemma enabled_nonterminal (s : Scan) :
  terminal (status s) = false -> enabled (Some s) = false.
Proof. unfold enabled. destruct (status s); done. Qed.

Lemma scan_fetches_app (t1 t2 : list Effect) :
  scan_fetches (t1 ++ t2) = (scan_fetches t1 + scan_fetches t2)%nat.
Proof. unfold scan_fetches. by rewrite filter_app, length_app. Qed.

Lemma vulnerability_fetches_app (t1 t2 : list Effect) :
  vulnerability_fetches (t1 ++ t2) =
  (vulnerability_fetches t1 + vulnerability_fetches t2)%nat.
Proof. unfold vulnerability_fetches. by rewrite filter_app, length_app. Qed.

Lemma scan_fetches_rounds {A} (l : list A) :
  scan_fetches (rounds l) = length l.
Proof.
  induction l as [|a l IH]; [reflexivity|].
  change (rounds (a :: l)) with ([Wait 3000; GetScan] ++ rounds l).
  rewrite scan_fetches_app, IH. reflexivity.
Qed.

Lemma observe_nonterminal (s : Scan) (v : View) :
  terminal (status s) = false ->
  vulnRequested v = false ->
  observe (Success s) v =
  {| scan := Some s; scanLoading := false; vulnRequested := false;
     trace := trace v |}.
Proof.
  intros Hs Hv. unfold observe.
  rewrite (enabled_nonterminal s Hs), Hv. cbn [orb andb].
  by rewrite app_nil_r.
Qed.

Lemma observe_terminal (t : Scan) (v : View) :
  vulnRequested v = false ->
  observe (Success t) v =
  {| scan := Some t; scanLoading := false; vulnRequested := enabled (Some t);
     trace := trace v ++
              (if enabled (Some t) then [GetVulnerabilities] else []) |}.
Proof.
  intros Hv. unfold observe. rewrite Hv. cbn [orb negb].
  by rewrite andb_true_r.
Qed.

Lemma poll_nonterminal (pre : list Scan) (v : View) :
  Forall (fun s => terminal (status s) = false) pre ->
  vulnRequested v = false ->
  pre <> [] ->
  poll (map Success pre) v =
  {| scan := last pre; scanLoading := false; vulnRequested := false;
     trace := trace v ++ rounds pre |}.
Proof.
  intros Hpre. revert v. induction Hpre as [|s pre Hs Hpre IH]; intros v Hv Hne.
  - contradiction.
  - cbn [map poll]. rewrite (observe_nonterminal s v Hs Hv). cbn [scan].
    rewrite refetchInterval_terminal, Hs. cbn [scanLoading vulnRequested trace].
    destruct pre as [|s' pre'].
    + reflexivity.
    + rewrite IH by done. cbn [trace]. f_equal.
      rewrite <- app_assoc. reflexivity.
Qed.

Lemma poll_until_terminal (pre : list Scan) (t : Scan) (rest : list Outcome) (v : View) :
  Forall (fun s => terminal (status s) = false) pre ->
  terminal (status t) = true ->
  vulnRequested v = false ->
  poll (map Success pre ++ Success t :: rest) v =
  {| scan := Some t; scanLoading := false; vulnRequested := enabled (Some t);
     trace := trace v ++ rounds pre ++
              (if enabled (Some t) then [GetVulnerabilities] else []) |}.
Proof.
  intros Hpre Ht. revert v. induction Hpre as [|s pre Hs Hpre IH]; intros v Hv.
  - cbn [map app poll]. rewrite (observe_terminal t v Hv). cbn [scan].
    rewrite refetchInterval_terminal, Ht. reflexivity.
  - cbn [map app poll]. rewrite (observe_nonterminal s v Hs Hv). cbn [scan].
    rewrite refetchInterval_terminal, Hs. cbn [scanLoading vulnRequested trace].
    rewrite IH by done. cbn [trace]. f_equal.
    rewrite <- !app_assoc. reflexivity.
Qed.

(** C5.  [refetchInterval] answers 3000 ms exactly for the statuses
    pending and running.  Over successive observations [pre] that are all
    pending or running, every observation is followed by one timer period
    of 3000 ms and one fetch, and the timer stays armed.  At the first
    terminal observation [t] the timer is not armed again: the scan was
    fetched once per observation up to and including [t], and whatever
    the backend would have answered afterwards ([rest]) is never asked
    for. *)
Theorem polling_stops_at_first_terminal
    (pre : list Scan) (t : Scan) (rest : list Outcome) :
  Forall (fun s => terminal (status s) = false) pre ->
  terminal (status t) = true ->
  let v := run (map Success pre ++ Success t :: rest) in
  (forall s, refetchInterval (Some s) =
             if terminal (status s) then None else Some 3000) /\
  (pre <> [] ->
   trace (run (map Success pre)) = GetScan :: rounds pre /\
   refetchInterval (scan (run (map Success pre))) = Some 3000) /\
  trace v = GetScan :: rounds pre ++
            (if bool_decide (status t = completed)
             then [GetVulnerabilities] else []) /\
  scan_fetches (trace v) = S (length pre) /\
  scan v = Some t /\
  refetchInterval (scan v) = None /\
  v = run (map Success pre ++ [Success t]).
Proof.
  intros Hpre Ht v.
  split; [apply refetchInterval_terminal|].
  split.
  { intros Hne. unfold run. rewrite poll_nonterminal by done. cbn [trace scan app mount].
    split; [reflexivity|].
    destruct (exists_last Hne) as (pre' & s & ->).
    rewrite last_snoc, refetchInterval_terminal.
    rewrite Forall_app, Forall_singleton in Hpre. destruct Hpre as [_ Hs].
    by rewrite Hs. }
  unfold v, run. rewrite !poll_until_terminal by done.
  cbn [trace scan app mount enabled].
  split; [reflexivity|]. split.
  { change (GetScan :: ?l) with ([GetScan] ++ l).
    rewrite !scan_fetches_app, scan_fetches_rounds.
    change (scan_fetches [GetScan]) with 1%nat.
    destruct (bool_decide _);
      [change (scan_fetches [GetVulnerabilities]) with 0%nat
      |change (scan_fetches []) with 0%nat]; lia. }
  split; [reflexivity|].
  split; [by rewrite refetchInterval_terminal, Ht|reflexivity].
Qed.

Lemma vulnerability_fetches_zero (t : list Effect) :
  vulnerability_fetches t = 0%nat <-> GetVulnerabilities ∉ t.
Proof.
  unfold vulnerability_fetches. induction t as [|e t IH].
  - split; [intros _; apply not_elem_of_nil | reflexivity].
  - rewrite filter_cons, not_elem_of_cons. case_decide as He.
    + subst e. cbn. split; [discriminate | intros [? _]; done].
    + rewrite IH. split; [intros ?; split; congruence | intros [_ ?]; done].
Qed.

Lemma poll_vulnerabilities (outcomes : list Outcome) (v : View) :
  vulnRequested v = false ->
  enabled (scan v) = false ->
  let v' := poll outcomes v in
  vulnerability_fetches (trace v') =
    (vulnerability_fetches (trace v) + if enabled (scan v') then 1 else 0)%nat /\
  (enabled (scan v') = true -> completed ∈ observed outcomes).
Proof.
  revert v. induction outcomes as [|o rest IH]; intros v Hv He.
  - cbn. rewrite He. split; [lia | discriminate].
  - cbn [poll]. destruct o as [s|].
    + destruct (terminal (status s)) eqn:Hs.
      * rewrite (observe_terminal s v Hv). cbn [scan].
        rewrite refetchInterval_terminal, Hs. cbn [scan trace].
        rewrite vulnerability_fetches_app. split.
        { destruct (enabled (Some s)); reflexivity. }
        intros Hen. apply enabled_completed in Hen as (s' & [= <-] & Hc).
        unfold observed. cbn. rewrite Hc. apply list_elem_of_here.
      * rewrite (observe_nonterminal s v Hs Hv). cbn [scan].
        rewrite refetchInterval_terminal, Hs. cbn [scanLoading vulnRequested trace].
        match goal with |- context [poll rest ?V] => specialize (IH V) end.
        cbn [scan vulnRequested trace] in IH.
        destruct (IH eq_refl (enabled_nonterminal s Hs)) as [IH1 IH2].
        rewrite IH1, vulnerability_fetches_app.
        change (vulnerability_fetches [Wait 3000; GetScan]) with 0%nat.
        split; [lia|]. intros Hen. unfold observed. cbn.
        apply list_elem_of_further. apply IH2, Hen.
    + assert (observe Failure v =
              {| scan := scan v; scanLoading := false; vulnRequested := false;
                 trace := trace v |}) as ->.
      { unfold observe. rewrite He, Hv. cbn. by rewrite app_nil_r. }
      cbn [scan]. destruct (refetchInterval (scan v)) as [ms|] eqn:Hri.
      * cbn [scanLoading vulnRequested trace].
        match goal with |- context [poll rest ?V] => specialize (IH V) end.
        cbn [scan vulnRequested trace] in IH.
        destruct (IH eq_refl He) as [IH1 IH2].
        rewrite IH1, vulnerability_fetches_app.
        change (vulnerability_fetches [Wait ms; GetScan]) with 0%nat.
        split; [lia | exact IH2].
      * cbn [scan trace]. rewrite He. split; [lia | discriminate].
Qed.

(** C6.  The vulnerability query is enabled exactly for a scan whose
    status is completed.  Over any run of the view it is fetched once if
    the scan ended up completed and not at all otherwise; a fetch implies
    that completed was observed, so a run that only sees pending, running,
    failed or cancelled never issues it. *)
Theorem vulnerabilities_only_when_completed (outcomes : list Outcome) :
  let v := run outcomes in
  (forall scan, enabled scan = true <-> exists s, scan = Some s /\ status s = completed) /\
  vulnerability_fetches (trace v) = (if enabled (scan v) then 1 else 0)%nat /\
  (GetVulnerabilities ∈ trace v -> completed ∈ observed outcomes) /\
  (completed ∉ observed outcomes -> vulnerability_fetches (trace v) = 0%nat).
Proof.
  intros v.
  destruct (poll_vulnerabilities outcomes mount eq_refl eq_refl) as [Hn Hc].
  fold (run outcomes) in Hn, Hc. fold v in Hn, Hc.
  change (vulnerability_fetches (trace mount)) with 0%nat in Hn.
  split; [apply enabled_completed|]. split; [exact Hn|].
  assert (GetVulnerabilities ∈ trace v -> completed ∈ observed outcomes) as Himp.
  { intros Hin. apply Hc. destruct (enabled (scan v)); [reflexivity|].
    exfalso. revert Hin. apply vulnerability_fetches_zero. exact Hn. }
  split; [exact Himp|].
  intros Hno. apply vulnerability_fetches_zero. intros Hin. apply Hno, Himp, Hin.
Qed.

Lemma poll_failures (s : Scan) (n : nat) (v : View) :
  terminal (status s) = false ->
  scan v = Some s -> scanLoading v = false -> vulnRequested v = false ->
  poll (repeat Failure n) v =
  {| scan := Some s; scanLoading := false; vulnRequested := false;
     trace := trace v ++ rounds (repeat Failure n) |}.
Proof.
  intros Hs. revert v. induction n as [|n IH]; intros v Hscan Hl Hv.
  - cbn. rewrite app_nil_r. destruct v; cbn in *; congruence.
  - cbn [repeat poll]. unfold observe. rewrite Hscan, Hv.
    rewrite (enabled_nonterminal s Hs). cbn [orb andb scan].
    rewrite refetchInterval_terminal, Hs. cbn [scanLoading vulnRequested trace].
    rewrite IH by done. cbn [trace]. f_equal.
    rewrite app_nil_r, <- app_assoc. reflexivity.
Qed.

(** C7, as the code has it.  A failed fetch leaves the last fetched scan
    in place.  So a failed fetch while that scan is pending or running is
    followed by another timer period of 3000 ms and another fetch; after
    a scan in a pending or running status, any number of failed fetches
    leave the timer armed and the view showing that scan.  Only a failure
    of the very first fetch leaves the query at rest, with the not-found
    panel on screen. *)
Theorem failed_fetch_keeps_polling :
  (forall v, scan (observe Failure v) = scan v) /\
  (forall (s : Scan) (v : View) (rest : list Outcome),
     scan v = Some s -> terminal (status s) = false ->
     exists v', poll (Failure :: rest) v = poll rest v' /\
                scan v' = Some s /\
                trace v' = trace v ++ [Wait 3000; GetScan]) /\
  (forall (s : Scan) (n : nat), terminal (status s) = false ->
     let v := run (Success s :: repeat Failure n) in
     trace v = GetScan :: rounds (Success s :: repeat Failure n) /\
     scan v = Some s /\
     refetchInterval (scan v) = Some 3000 /\
     render v = Detail s) /\
  (forall rest,
     let v := run (Failure :: rest) in
     trace v = [GetScan] /\ scan v = None /\
     refetchInterval (scan v) = None /\ render v = NotFound).
Proof.
  split; [reflexivity|]. split; [|split].
  - intros s v rest Hscan Hs. cbn [poll]. unfold observe.
    rewrite Hscan, (enabled_nonterminal s Hs). cbn [andb scan].
    rewrite refetchInterval_terminal, Hs. cbn [scanLoading vulnRequested trace].
    eexists. split; [reflexivity|]. cbn [scan trace].
    split; [reflexivity|]. by rewrite app_nil_r.
  - intros s n Hs v. unfold v, run. cbn [poll].
    rewrite (observe_nonterminal s mount Hs eq_refl). cbn [scan].
    rewrite refetchInterval_terminal, Hs. cbn [scanLoading vulnRequested trace].
    rewrite (poll_failures s) by done. cbn [trace scan].
    rewrite refetchInterval_terminal, Hs. done.
  - intros rest v. unfold v, run. cbn. done.
Qed.


End PollingFacts.

(** *** The theorems at work on sample runs *)

Section PollingRuns.
Import Types ScanDetail Fixtures.

(** pending, running, completed, and a reply that is never asked for. *)
Lemma polling_stops_at_first_terminal_witness :
  let v := run [Success (scan_in pending); Success (scan_in running);
                Success (scan_in completed); Success (scan_in running)] in
  trace v = [GetScan; Wait 3000; GetScan; Wait 3000; GetScan; GetVulnerabilities] /\
  scan_fetches (trace v) = 3%nat /\
  refetchInterval (scan v) = None.
Proof.
  destruct (polling_stops_at_first_terminal
              [scan_in pending; scan_in running] (scan_in completed)
              [Success (scan_in running)])
    as (_ & _ & Htrace & Hcount & _ & Hrest & _).
  - repeat constructor.
  - reflexivity.
  - split; [exact Htrace|]. split; [exact Hcount | exact Hrest].
Defined.

(** A scan that fails: no vulnerability fetch. *)
Lemma vulnerabilities_only_when_completed_witness :
  let v := run [Success (scan_in pending); Success (scan_in running);
                Success (scan_in failed)] in
  vulnerability_fetches (trace v) = 0%nat /\
  enabled (Some (scan_in completed)) = true.
Proof.
  destruct (vulnerabilities_only_when_completed
              [Success (scan_in pending); Success (scan_in running);
               Success (scan_in failed)])
    as (Hgate & _ & _ & Hnone).
  split.
  - apply Hnone. intros H. apply list_elem_of_In in H. cbn in H.
    intuition discriminate.
  - apply Hgate. exists (scan_in completed). split; reflexivity.
Defined.

(** C7 as stated fails here: the scan is running, then every fetch fails.
    After each failure the timer is armed again and the scan is fetched
    again; the view goes on showing the running scan, and nothing
    reports the failures. *)
Lemma polling_survives_failed_fetches :
  let v1 := run [Success (scan_in running); Failure] in
  let v3 := run [Success (scan_in running); Failure; Failure; Failure] in
  refetchInterval (scan v1) = Some 3000 /\
  render v1 = Detail (scan_in running) /\
  trace v3 = [GetScan; Wait 3000; GetScan; Wait 3000; GetScan;
              Wait 3000; GetScan; Wait 3000; GetScan] /\
  refetchInterval (scan v3) = Some 3000 /\
  render v3 = Detail (scan_in running).
Proof. repeat split. Qed.

Lemma failed_fetch_keeps_polling_witness :
  let v := run (Success (scan_in running) :: repeat Failure 3) in
  scan_fetches (trace v) = 5%nat /\
  refetchInterval (scan v) = Some 3000 /\
  render v = Detail (scan_in running).
Proof.
  destruct failed_fetch_keeps_polling as (_ & _ & Hkeep & _).
  destruct (Hkeep (scan_in running) 3%nat eq_refl) as (Htrace & _ & Htimer & Hscreen).
  split; [rewrite Htrace; reflexivity|]. split; [exact Htimer | exact Hscreen].
Defined.

End PollingRuns.

(** ** The form handlers *)

Section FormFacts.
Import Api Forms Fixtures.

(** C8 as stated fails here: a 422 whose [detail] lists two entries.  The
    login form shows one toast, the two [msg] joined by a comma. *)
Lemma login_collapses_details :
  let error := validation_error [ItemObject (Some "a"); ItemObject (Some "b")] in
  Login.handleSubmit_catch error =
    [ {| Login.text := "a, b"; Login.duration := 5000 |} ] /\
  length (Login.handleSubmit_catch error) = 1%nat.
Proof. split; reflexivity. Qed.

(** C8, as the code has it.  For a failure whose response carries a list
    as [detail]: with a status other than 500 the login form shows a
    single toast, the [msg] of the entries joined by [", "], and the
    registration form shows one toast per entry, in order, 200 ms apart;
    with status 500 either form shows the one server-error message. *)
Theorem validation_details_rendering
    (error : Caught) (resp : Response) (items : list DetailItem) :
  response error = Some resp ->
  detail (data resp) = DetailList items ->
  (status resp <> 500 ->
   Login.handleSubmit_catch error =
     [ {| Login.text := JS.join ", " (map Login.msg_of items);
          Login.duration := 5000 |} ] /\
   (items <> [] ->
    Register.handleSubmit_catch error =
      imap (fun index err =>
              {| Register.text := Register.item_message err;
                 Register.duration := 5000;
                 Register.delay := Z.of_nat index * 200 |}) items /\
    length (Register.handleSubmit_catch error) = length items)) /\
  (status resp = 500 ->
   Login.handleSubmit_catch error =
     [ {| Login.text := Login.server_error; Login.duration := 5000 |} ] /\
   Register.handleSubmit_catch error =
     [ {| Register.text := Register.server_error; Register.duration := 5000;
          Register.delay := 0 |} ]).
Proof.
  intros Hresp Hdetail. split.
  - intros Hst. apply Z.eqb_neq in Hst. split.
    + unfold Login.handleSubmit_catch, Login.error_message.
      rewrite Hresp, Hdetail, Hst. reflexivity.
    + intros Hne.
      assert (Register.messages error = map Register.item_message items) as Hm.
      { unfold Register.messages. rewrite Hresp, Hdetail, Hst.
        destruct items; [contradiction | reflexivity]. }
      unfold Register.handleSubmit_catch. rewrite Hm. split.
      * rewrite imap_fmap. reflexivity.
      * rewrite length_imap, length_map. reflexivity.
  - intros Hst. split.
    + unfold Login.handleSubmit_catch, Login.error_message.
      rewrite Hresp, Hst. reflexivity.
    + unfold Register.handleSubmit_catch, Register.messages.
      rewrite Hresp, Hst. reflexivity.
Qed.

Lemma validation_details_rendering_witness :
  let items := [ItemObject (Some "a"); ItemString "b"; ItemObject None] in
  let error := validation_error items in
  Login.handleSubmit_catch error =
    [ {| Login.text := "a, , "; Login.duration := 5000 |} ] /\
  Register.handleSubmit_catch error =
    [ {| Register.text := "a"; Register.duration := 5000; Register.delay := 0 |};
      {| Register.text := "b"; Register.duration := 5000; Register.delay := 200 |};
      {| Register.text := Register.invalid_input; Register.duration := 5000;
         Register.delay := 400 |} ] /\
  length (Register.handleSubmit_catch error) = 3%nat.
Proof.
  intros items error.
  destruct (validation_details_rendering error _ items eq_refl eq_refl) as [H422 _].
  destruct H422 as [HL HR]; [discriminate|].
  destruct HR as [HR1 HR2]; [discriminate|].
  split; [exact HL|]. split; [exact HR1 | exact HR2].
Defined.

(** C9.  For a non-empty input: [targetUrl] is the input with
    ["https://"] in front when it starts with neither scheme, and the
    input itself otherwise; a creation request carries [targetUrl] and is
    issued only if [targetUrl] parses; if it does not parse no request is
    issued; and with the terms agreed and a [targetUrl] that parses the
    request is issued. *)
Theorem new_scan_url_normalised (URL_parses : string -> bool)
    (url : string) (agreed : bool) (scanType : string) (customDepth : Z) :
  url <> "" ->
  let submission := NewScan.handleSubmit URL_parses url agreed scanType customDepth in
  (JS.startsWith url "http://" = false ->
   JS.startsWith url "https://" = false ->
   NewScan.targetUrl url = "https://" +:+ url) /\
  (JS.startsWith url "http://" = true \/ JS.startsWith url "https://" = true ->
   NewScan.targetUrl url = url) /\
  (forall body, submission = NewScan.Create body ->
     NewScan.target_url body = NewScan.targetUrl url /\
     URL_parses (NewScan.targetUrl url) = true) /\
  (URL_parses (NewScan.targetUrl url) = false ->
   forall body, submission <> NewScan.Create body) /\
  (agreed = true -> URL_parses (NewScan.targetUrl url) = true ->
   submission =
     NewScan.Create {| NewScan.target_url := NewScan.targetUrl url;
                       NewScan.scan_type := scanType;
                       NewScan.scan_depth := NewScan.depth_of scanType customDepth |}).
Proof.
  intros Hurl submission.
  assert (String.eqb url "" = false) as Hne by (by apply String.eqb_neq).
  assert (forall body, submission = NewScan.Create body ->
            NewScan.target_url body = NewScan.targetUrl url /\
            URL_parses (NewScan.targetUrl url) = true) as Hcreate.
  { intros body. unfold submission, NewScan.handleSubmit. rewrite Hne.
    destruct agreed; cbn; [|discriminate].
    destruct (URL_parses _); cbn; [|discriminate].
    intros [= <-]. done. }
  split; [|split; [|split; [|split]]].
  - intros H1 H2. unfold NewScan.targetUrl. by rewrite H1, H2.
  - intros H. unfold NewScan.targetUrl.
    destruct H as [-> | ->]; cbn; [done|]. by rewrite andb_false_r.
  - exact Hcreate.
  - intros Hbad body Hb. apply Hcreate in Hb as [_ Hok]. congruence.
  - intros -> Hok. unfold submission, NewScan.handleSubmit.
    rewrite Hne, Hok. reflexivity.
Qed.

(** A bare host name is sent with the scheme in front; an input that does
    not parse (here: every input) is not sent. *)
Lemma new_scan_url_normalised_witness :
  NewScan.handleSubmit (fun _ => true) "example.com" true "full" 3 =
    NewScan.Create {| NewScan.target_url := "https://example.com";
                      NewScan.scan_type := "full";
                      NewScan.scan_depth := 3 |} /\
  NewScan.handleSubmit (fun _ => false) "http://" true "full" 3 =
    NewScan.Refused NewScan.url_invalid.
Proof.
  destruct (new_scan_url_normalised (fun _ => true) "example.com" true "full" 3)
    as (Hprefix & _ & _ & _ & Hsent); [discriminate|].
  destruct (new_scan_url_normalised (fun _ => false) "http://" true "full" 3)
    as (_ & _ & _ & Hnone & _); [discriminate|].
  split.
  - rewrite (Hsent eq_refl eq_refl), (Hprefix eq_refl eq_refl). reflexivity.
  - destruct (NewScan.handleSubmit (fun _ => false) "http://" true "full" 3)
      as [toast|body] eqn:Hs.
    + vm_compute in Hs. injection Hs as <-. reflexivity.
    + exfalso. exact (Hnone eq_refl body eq_refl).
Defined.

End FormFacts.

(** ** The page buttons *)

Section PaginationFacts.
Import ScanHistory.

Lemma pageNum_shift (page totalPages i : Z) :
  pageNum page totalPages i = pageNum page totalPages 0 + i.
Proof. unfold pageNum. repeat case_match; lia. Qed.

Lemma pageButtons_lookup (page totalPages : Z) (i : nat) (n : Z) :
  pageButtons page totalPages !! i = Some n <->
  (Z.of_nat i < Z.min 5 totalPages /\ n = pageNum page totalPages (Z.of_nat i)).
Proof.
  unfold pageButtons.
  rewrite list_lookup_fmap, fmap_Some.
  split.
  - intros (j & Hj & ->). apply lookup_seq in Hj as [-> Hlt].
    split; [lia | reflexivity].
  - intros [Hlt ->]. exists i. split; [| reflexivity].
    apply lookup_seq. split; [reflexivity | lia].
Qed.

Lemma pageNum_first_bounds (p totalPages : Z) :
  1 <= totalPages -> 1 <= p <= totalPages ->
  let first := pageNum p totalPages 0 in
  1 <= first /\ first + Z.min 5 totalPages - 1 <= totalPages /\
  first <= p < first + Z.min 5 totalPages.
Proof. intros HT Hp. unfold pageNum. repeat case_match; lia. Qed.

(** C10.  For 1 <= p <= totalPages the page buttons are min(5, totalPages)
    numbers, each between 1 and totalPages, each the successor of the one
    before it, and p is one of them. *)
Theorem pagination_window (p totalPages : Z) :
  1 <= totalPages -> 1 <= p <= totalPages ->
  let window := pageButtons p totalPages in
  Z.of_nat (length window) = Z.min 5 totalPages /\
  Forall (fun n => 1 <= n <= totalPages) window /\
  (forall (i : nat) (n m : Z),
      window !! i = Some n -> window !! S i = Some m -> m = n + 1) /\
  p ∈ window.
Proof.
  intros HT Hp window.
  pose proof (pageNum_first_bounds p totalPages HT Hp) as (Hlo & Hhi & Hin).
  split; [| split; [| split]].
  - unfold window, pageButtons. rewrite length_map, length_seq. lia.
  - apply Forall_lookup. intros i n Hi.
    apply pageButtons_lookup in Hi as [Hlt ->].
    rewrite pageNum_shift. lia.
  - intros i n m Hn Hm.
    apply pageButtons_lookup in Hn as [_ ->].
    apply pageButtons_lookup in Hm as [_ ->].
    rewrite (pageNum_shift _ _ (Z.of_nat (S i))), (pageNum_shift _ _ (Z.of_nat i)).
    lia.
  - apply list_elem_of_lookup.
    exists (Z.to_nat (p - pageNum p totalPages 0)).
    apply pageButtons_lookup. split; [lia |].
    rewrite pageNum_shift. lia.
Qed.

(** Page 7 of 12: the buttons 5 to 9. *)
Lemma pagination_window_witness :
  pageButtons 7 12 = [5; 6; 7; 8; 9] /\
  Z.of_nat (length (pageButtons 7 12)) = Z.min 5 12 /\
  Forall (fun n => 1 <= n <= 12) (pageButtons 7 12) /\
  7 ∈ pageButtons 7 12.
Proof.
  destruct (pagination_window 7 12) as (Hlen & Hall & _ & Hin); [lia | lia |].
  split; [reflexivity|]. split; [exact Hlen|]. split; [exact Hall | exact Hin].
Defined.

End PaginationFacts.

(* ===================================================================== *)
(** * Further properties                                                   *)
(* ===================================================================== *)

(** ** The API client: what a call does to the session and the wire *)

Section ApiSession.
Import Api.

Variable setTokens : JS.str -> JS.str -> AuthStore.State -> AuthStore.State.
Variable logout : AuthStore.State -> AuthStore.State.

Lemma tail_tail_drop {A} (l : list A) : tail (tail l) = drop 2 l.
Proof. destruct l as [|? [|? ?]]; reflexivity. Qed.

(** X1.  Only a 401 sets the refresh machinery off.  When the reply to
    the request is anything else (a 2xx, a 403, a 500, no reply at all),
    the call puts one request on the wire, makes no refresh call, leaves
    the session as it was and hands the settled reply to the caller. *)
Theorem only_401_touches_session (c : Config) (w : World) (n : nat) :
  (forall r, reply_at 0 w = Http r -> status r <> 401) ->
  exists w',
    api setTokens logout (2 + n) c w =
      Some (settle (with_bearer (store w) c) (reply_at 0 w), w') /\
    store w' = store w /\
    log w' = log w ++ [Send (with_bearer (store w) c)] /\
    wire w' = tail (wire w).
Proof.
  intros Hno. cbn [Nat.add].
  rewrite api_passthrough by (intros r Hr E; destruct (Hno r Hr E)).
  eexists. split; [reflexivity|]. repeat split.
Qed.

Ltac not_in_log :=
  rewrite ?not_elem_of_cons; repeat split; try discriminate;
  apply not_elem_of_nil.

Ltac in_log :=
  rewrite ?elem_of_cons; auto 10.

(** X2.  A call does exactly one of three things to the session.  It
    leaves it alone, and then makes no refresh call; or it stores one
    refreshed pair of tokens and sends the request twice, without logging
    out; or it logs out, and then it has sent the request once, stored no
    tokens, and rejects with a 401.  In particular a call that resolves
    has not logged out. *)
Theorem session_effect_exclusive (c : Config) (w : World) (n : nat) :
  exists result w' events,
    api setTokens logout (2 + n) c w = Some (result, w') /\
    log w' = log w ++ events /\
    ((store w' = store w /\
      (Logout ∉ events) /\ (forall a r, SetTokens a r ∉ events) /\
      refreshes events = 0%nat /\ length (sends events) = 1%nat)
     \/
     (exists a r,
        store w' = setTokens a r (store w) /\
        SetTokens a r ∈ events /\ (Logout ∉ events) /\
        refreshes events = 1%nat /\ length (sends events) = 2%nat)
     \/
     (store w' = logout (store w) /\
      Logout ∈ events /\ (forall a r, SetTokens a r ∉ events) /\
      length (sends events) = 1%nat /\
      exists e, result = Rejected e /\ is_401 e = true)).
Proof.
  cbn [Nat.add].
  destruct (reply_at 0 w) as [r1|] eqn:Hr; cycle 1.
  { rewrite api_passthrough by (intros r; rewrite Hr; discriminate).
    eexists _, _, _. split; [reflexivity|]. split; [reflexivity|].
    left. cbn [store]. split; [reflexivity|]. split; [not_in_log|].
    split; [intros; not_in_log|]. split; reflexivity. }
  destruct (Z.eq_dec (status r1) 401) as [H401|Hne]; cycle 1.
  { rewrite api_passthrough
      by (intros r; rewrite Hr; intros [= <-]; contradiction).
    eexists _, _, _. split; [reflexivity|]. split; [reflexivity|].
    left. cbn [store]. split; [reflexivity|]. split; [not_in_log|].
    split; [intros; not_in_log|]. split; reflexivity. }
  destruct (_retry c) eqn:Hc.
  { rewrite api_marked by assumption.
    eexists _, _, _. split; [reflexivity|]. split; [reflexivity|].
    left. cbn [store]. split; [reflexivity|]. split; [not_in_log|].
    split; [intros; not_in_log|]. split; reflexivity. }
  destruct (JS.truthy (AuthStore.refreshToken (store w))) eqn:Hrt; cycle 1.
  { rewrite (api_no_refresh_token _ _ _ _ _ r1) by assumption.
    eexists _, _, _. split; [reflexivity|]. split; [reflexivity|].
    right; right. cbn [store]. split; [reflexivity|]. split; [in_log|].
    split; [intros; not_in_log|]. split; [reflexivity|].
    eexists. split; [reflexivity|]. unfold is_401. cbn. by rewrite H401. }
  destruct (settle refresh_config (reply_at 1 w)) as [resp|e] eqn:Hs; cycle 1.
  { rewrite (api_refresh_fails _ _ _ _ _ r1 e) by assumption.
    eexists _, _, _. split; [reflexivity|]. split; [reflexivity|].
    right; right. cbn [store]. split; [reflexivity|]. split; [in_log|].
    split; [intros; not_in_log|]. split; [reflexivity|].
    eexists. split; [reflexivity|]. unfold is_401. cbn. by rewrite H401. }
  rewrite (api_refreshed _ _ _ _ _ r1 resp) by assumption.
  eexists _, _, _. split; [reflexivity|]. split; [reflexivity|].
  right; left. eexists _, _. cbn [store]. split; [reflexivity|].
  split; [in_log|]. split; [not_in_log|].
  split; [rewrite !refreshes_cons; reflexivity | reflexivity].
Qed.

(** X3.  The request interceptor is idempotent, and while the store
    holds an access token no [Authorization] header of the caller's own
    survives it: the request leaves with the store's token whatever the
    caller had put there. *)
Theorem bearer_overrides_caller_header (s : AuthStore.State) (c : Config) :
  with_bearer s (with_bearer s c) = with_bearer s c /\
  (JS.truthy (AuthStore.accessToken s) = true ->
   forall v, with_bearer s (set_header "Authorization" v c) = with_bearer s c).
Proof.
  unfold with_bearer. destruct (JS.truthy (AuthStore.accessToken s)) eqn:Ht.
  - split.
    + unfold set_header. cbn. f_equal. apply insert_insert_eq.
    + intros _ v. unfold set_header. cbn. f_equal. apply insert_insert_eq.
  - split; [reflexivity | discriminate].
Qed.

End ApiSession.

(** ** The new-scan form *)

Section NewScanFacts.
Import NewScan.

Lemma startsWith_app (p s : string) : JS.startsWith (p +:+ s) p = true.
Proof.
  unfold JS.startsWith. induction p as [|a p IH]; simpl.
  - by destruct s.
  - destruct (Ascii.ascii_dec a a); [exact IH | contradiction].
Qed.

(** X4.  Whatever is typed, [targetUrl] starts with ["http://"] or
    ["https://"], and normalising twice is normalising once. *)
Theorem targetUrl_has_scheme (url : string) :
  JS.startsWith (targetUrl url) "http://" || JS.startsWith (targetUrl url) "https://" = true /\
  targetUrl (targetUrl url) = targetUrl url.
Proof.
  assert (JS.startsWith (targetUrl url) "http://"
          || JS.startsWith (targetUrl url) "https://" = true) as H.
  { unfold targetUrl.
    destruct (JS.startsWith url "http://") eqn:H1; cbn [negb andb].
    - by rewrite H1.
    - destruct (JS.startsWith url "https://") eqn:H2; cbn [negb].
      + by rewrite H1, H2.
      + rewrite (startsWith_app "https://" url). apply orb_true_r. }
  split; [exact H|].
  unfold targetUrl at 1.
  destruct (JS.startsWith (targetUrl url) "http://"),
           (JS.startsWith (targetUrl url) "https://"); try reflexivity.
  discriminate.
Qed.

(** X5.  The creation request goes out exactly when a URL was typed, the
    terms are agreed to and [targetUrl] parses, and then with that URL,
    the chosen type and [depth_of].  A missing URL is reported before
    missing agreement, and missing agreement before a URL that does not
    parse. *)
Theorem create_iff_valid (URL_parses : string -> bool)
    (url : string) (agreed : bool) (scanType : string) (customDepth : Z) :
  let submission := handleSubmit URL_parses url agreed scanType customDepth in
  (forall body, submission = Create body <->
     url <> "" /\ agreed = true /\ URL_parses (targetUrl url) = true /\
     body = {| target_url := targetUrl url; scan_type := scanType;
               scan_depth := depth_of scanType customDepth |}) /\
  (url = "" -> submission = Refused url_missing) /\
  (url <> "" -> agreed = false -> submission = Refused terms_missing) /\
  (url <> "" -> agreed = true -> URL_parses (targetUrl url) = false ->
   submission = Refused url_invalid).
Proof.
  intros submission. unfold submission, handleSubmit.
  destruct (String.eqb_spec url "") as [->|Hne].
  { split; [|done]. intros body. split; [discriminate | intros [? _]; done]. }
  destruct agreed; cbn [negb].
  - destruct (URL_parses (targetUrl url)) eqn:Hp; cbn [negb].
    + split; [|done]. intros body. split.
      * intros [= <-]. done.
      * intros (_ & _ & _ & ->). reflexivity.
    + split; [|done]. intros body. split; [discriminate|].
      intros (_ & _ & ? & _). discriminate.
  - split; [|done]. intros body. split; [discriminate|].
    intros (_ & ? & _). discriminate.
Qed.

(** X6.  The depth that is sent: the slider's value for the custom type,
    1 for quick, 3 for full and for any type that is not in the table.
    The depth 5 the table lists for custom is never sent on its account. *)
Theorem depth_sent (scanType : string) (customDepth : Z) :
  (scanType = "custom" -> depth_of scanType customDepth = customDepth) /\
  (scanType = "quick" -> depth_of scanType customDepth = 1) /\
  (scanType = "full" -> depth_of scanType customDepth = 3) /\
  (scanType <> "custom" -> scanType <> "quick" -> scanType <> "full" ->
   depth_of scanType customDepth = 3) /\
  (scanType <> "custom" ->
   depth_of scanType customDepth = 1 \/ depth_of scanType customDepth = 3).
Proof.
  assert (scanType <> "custom" ->
          depth_of scanType customDepth =
          if String.eqb "quick" scanType then 1 else 3) as Hother.
  { intros Hc. unfold depth_of.
    destruct (String.eqb_spec scanType "custom") as [|_]; [contradiction|].
    unfold scanTypes. cbn [find type_id].
    destruct (String.eqb "quick" scanType); [reflexivity|].
    destruct (String.eqb "full" scanType); [reflexivity|].
    destruct (String.eqb_spec "custom" scanType); [congruence | reflexivity]. }
  split; [intros ->; reflexivity|].
  split; [intros ->; reflexivity|].
  split; [intros ->; reflexivity|].
  split.
  - intros Hc Hq _. rewrite (Hother Hc).
    destruct (String.eqb_spec "quick" scanType); congruence.
  - intros Hc. rewrite (Hother Hc).
    destruct (String.eqb "quick" scanType); auto.
Qed.

End NewScanFacts.

(** ** The scan history: pages *)

Section HistoryFacts.
Import ScanHistory.

Lemma ceil_div_10_bounds (total : Z) :
  10 * (JS.ceil_div total 10 - 1) < total <= 10 * JS.ceil_div total 10.
Proof.
  unfold JS.ceil_div.
  pose proof (Z.div_mod (- total) 10 ltac:(lia)) as Hdm.
  pose proof (Z.mod_pos_bound (- total) 10 ltac:(lia)) as Hm.
  lia.
Qed.

Lemma pagination_Some (v : Listing) (page totalPages : Z) (buttons : list Z) :
  pagination v page totalPages = Some buttons <->
  isLoading v = false /\ filteredScans v <> [] /\ 1 < totalPages /\
  buttons = pageButtons page totalPages.
Proof.
  unfold pagination.
  destruct (isLoading v), (filteredScans v) as [|s rest];
    cbn [length Nat.ltb Nat.leb]; destruct (Z.ltb_spec 1 totalPages);
    split; try (intros [= <-]); try (intros (? & ? & ? & ?));
    try congruence; try lia; repeat split; congruence.
Qed.

(** X7.  [totalPages] is the least number of pages of ten that hold
    [total] rows, and the page buttons are on screen exactly when the
    query is not loading, at least one scan is listed, and there are more
    than ten rows in total. *)
Theorem totalPages_covers_total (total page : Z) (v : Listing) :
  10 * (totalPages total - 1) < total <= 10 * totalPages total /\
  (is_Some (pagination v page (totalPages total)) <->
   isLoading v = false /\ filteredScans v <> [] /\ 10 < total) /\
  (pagination v page (totalPages total) =
     Some (pageButtons page (totalPages total)) \/
   pagination v page (totalPages total) = None).
Proof.
  pose proof (ceil_div_10_bounds total) as Hb. fold (totalPages total) in Hb.
  split; [exact Hb|]. split.
  - split.
    + intros [buttons Hsome]. apply pagination_Some in Hsome as (? & ? & ? & _).
      repeat split; [assumption | assumption | lia].
    + intros (Hload & Hrows & Htotal). eexists. apply pagination_Some.
      repeat split; [assumption | assumption | lia].
  - destruct (pagination v page (totalPages total)) as [buttons|] eqn:Hp;
      [left | right; reflexivity].
    apply pagination_Some in Hp as (_ & _ & _ & ->). reflexivity.
Qed.



Lemma filter_eq_NoDup (x : Z) (l : list Z) :
  NoDup l -> x ∈ l -> filter (fun n => x = n) l = [x].
Proof.
  induction 1 as [|y l Hy Hnd IH]; intros Hin; [by apply elem_of_nil in Hin|].
  rewrite filter_cons. case_decide as E.
  - subst y. f_equal. clear IH Hin Hnd.
    induction l as [|z l IH]; [reflexivity|].
    rewrite filter_cons. apply not_elem_of_cons in Hy as [Hz Hl].
    case_decide; [congruence | by apply IH].
  - apply elem_of_cons in Hin as [?|Hin]; [congruence | by apply IH].
Qed.

Lemma pageButtons_NoDup (page totalPages : Z) : NoDup (pageButtons page totalPages).
Proof.
  apply NoDup_alt. intros i j n Hi Hj.
  apply pageButtons_lookup in Hi as [_ ->].
  apply pageButtons_lookup in Hj as [_ Hj].
  rewrite (pageNum_shift _ _ (Z.of_nat i)), (pageNum_shift _ _ (Z.of_nat j)) in Hj.
  lia.
Qed.

(** X9.  On a page within range exactly one button is drawn as the
    current page, and it carries the current page's number; the two
    arrows undo each other away from the ends. *)
Theorem one_button_highlighted (page totalPages : Z) :
  1 <= page <= totalPages ->
  highlighted page totalPages = [page] /\
  (1 < page -> next totalPages (previous page) = page) /\
  (page < totalPages -> previous (next totalPages page) = page).
Proof.
  intros Hp. split; [|unfold next, previous; lia].
  unfold highlighted. apply filter_eq_NoDup; [apply pageButtons_NoDup|].
  apply list_elem_of_lookup.
  pose proof (pageNum_first_bounds page totalPages ltac:(lia) Hp) as (_ & _ & Hin).
  exists (Z.to_nat (page - pageNum page totalPages 0)).
  apply pageButtons_lookup. split; [lia|]. rewrite pageNum_shift. lia.
Qed.

End HistoryFacts.

(** ** The dashboard and the scan card *)

Section DashboardFacts.
Import Types Dashboard.

Lemma foldl_sum_acc (f : Scan -> Z) (l : list Scan) (acc : Z) :
  foldl (fun acc s => acc + f s) acc l = acc + reduce_sum f l.
Proof.
  unfold reduce_sum. revert acc. induction l as [|s l IH]; intros acc; cbn [foldl].
  - lia.
  - rewrite IH, (IH (0 + f s)). lia.
Qed.

Lemma reduce_sum_cons (f : Scan -> Z) (s : Scan) (l : list Scan) :
  reduce_sum f (s :: l) = f s + reduce_sum f l.
Proof. unfold reduce_sum at 1. cbn [foldl]. rewrite foldl_sum_acc. lia. Qed.

Lemma reduce_sum_Permutation (f : Scan -> Z) (l1 l2 : list Scan) :
  l1 ≡ₚ l2 -> reduce_sum f l1 = reduce_sum f l2.
Proof.
  induction 1 as [|s l1 l2 _ IH|s1 s2 l|l1 l2 l3 _ IH1 _ IH2].
  - reflexivity.
  - rewrite !reduce_sum_cons, IH. reflexivity.
  - rewrite !reduce_sum_cons. lia.
  - congruence.
Qed.

(** X10.  The dashboard's figures depend on the completed scans alone
    and not on their order: two lists of scans with the same completed
    scans, in any order, give the same four cards and the same chart. *)
Theorem dashboard_counts_completed_only (totalScans : Z) (scans scans' : list Scan) :
  completedScans scans ≡ₚ completedScans scans' ->
  stats totalScans scans = stats totalScans scans' /\
  pieData scans = pieData scans'.
Proof.
  intros Hp.
  assert (forall f, reduce_sum f (completedScans scans) =
                    reduce_sum f (completedScans scans')) as Hsum
    by (intros f; by apply reduce_sum_Permutation).
  split.
  - unfold stats, totalVulnerabilities, criticalCount, highCount.
    rewrite !Hsum, (Permutation_length Hp). reflexivity.
  - unfold pieData, slices, criticalCount, highCount. rewrite !Hsum. reflexivity.
Qed.

Lemma reduce_sum_nonneg (f : Scan -> Z) (l : list Scan) :
  Forall (fun s => 0 <= f s) l ->
  0 <= reduce_sum f l /\ (reduce_sum f l = 0 <-> Forall (fun s => f s = 0) l).
Proof.
  induction 1 as [|s l Hs Hl [IH0 IH]].
  - split; [reflexivity | split; [constructor | reflexivity]].
  - rewrite reduce_sum_cons. split; [lia|]. rewrite Forall_cons, <- IH. lia.
Qed.

(** X11.  The chart shows only slices with a positive value, in the
    order Critical, High, Medium, Low, Info.  When no count is negative,
    the chart is empty (and the "no data" text is shown instead) exactly
    when every completed scan has all five counts at zero. *)
Theorem pie_slices_positive (scans : list Scan) :
  Forall (fun d => 0 < value d) (pieData scans) /\
  sublist (name <$> pieData scans) ["Critical"; "High"; "Medium"; "Low"; "Info"] /\
  (Forall (fun s => 0 <= critical_count s /\ 0 <= high_count s /\
                    0 <= medium_count s /\ 0 <= low_count s /\
                    0 <= info_count s) (completedScans scans) ->
   (pieData scans = [] <->
    Forall (fun s => critical_count s = 0 /\ high_count s = 0 /\
                     medium_count s = 0 /\ low_count s = 0 /\
                     info_count s = 0) (completedScans scans))).
Proof.
  split; [|split].
  - unfold pieData. apply Forall_forall. intros d Hd.
    by apply list_elem_of_filter in Hd as [? _].
  - unfold pieData.
    change ["Critical"; "High"; "Medium"; "Low"; "Info"] with (name <$> slices scans).
    apply fmap_sublist, sublist_filter.
  - intros Hnn.
    destruct (reduce_sum_nonneg critical_count (completedScans scans)) as [Hc0 Hc];
      [eapply Forall_impl; [exact Hnn | cbn; intros ? ?; lia]|].
    destruct (reduce_sum_nonneg high_count (completedScans scans)) as [Hh0 Hh];
      [eapply Forall_impl; [exact Hnn | cbn; intros ? ?; lia]|].
    destruct (reduce_sum_nonneg medium_count (completedScans scans)) as [Hm0 Hm];
      [eapply Forall_impl; [exact Hnn | cbn; intros ? ?; lia]|].
    destruct (reduce_sum_nonneg low_count (completedScans scans)) as [Hl0 Hl];
      [eapply Forall_impl; [exact Hnn | cbn; intros ? ?; lia]|].
    destruct (reduce_sum_nonneg info_count (completedScans scans)) as [Hi0 Hi];
      [eapply Forall_impl; [exact Hnn | cbn; intros ? ?; lia]|].
    rewrite !Forall_and, <- Hc, <- Hh, <- Hm, <- Hl, <- Hi.
    unfold pieData, slices, criticalCount, highCount.
    rewrite !filter_cons, filter_nil. cbn [value].
    repeat case_decide; split; try discriminate; intros; try reflexivity; lia.
Qed.

End DashboardFacts.

Section ScanCardFacts.
Import Types ScanCard.

(** X12.  A card lists only positive counts, never the info count, and
    only for a completed scan.  A completed scan that reports findings
    in total but has none of critical, high, medium or low (say, info
    findings only) gets an empty line: neither counts nor the no-findings
    text. *)
Theorem card_summary_positive_counts (scan : Scan) :
  (forall shown, summary scan = Counts shown ->
     status scan = completed /\ 0 < total_vulnerabilities scan /\
     Forall (fun e => 0 < e.1) shown /\
     sublist (snd <$> shown) ["Critical"; "High"; "Medium"; "Low"]) /\
  (summary scan = Counts [] <->
   status scan = completed /\ 0 < total_vulnerabilities scan /\
   critical_count scan <= 0 /\ high_count scan <= 0 /\
   medium_count scan <= 0 /\ low_count scan <= 0) /\
  (summary scan = NothingFound <->
   status scan = completed /\ total_vulnerabilities scan <= 0).
Proof.
  unfold summary.
  destruct (decide (status scan = completed)) as [Hc|Hc].
  2: { rewrite (bool_decide_eq_false_2 _ Hc).
       repeat split; try discriminate; intros; tauto. }
  rewrite (bool_decide_eq_true_2 _ Hc).
  destruct (Z.ltb_spec 0 (total_vulnerabilities scan)) as [Ht|Ht].
  2: { repeat split; try discriminate; intros; try tauto; lia. }
  destruct (Z.ltb_spec 0 (critical_count scan)),
           (Z.ltb_spec 0 (high_count scan)),
           (Z.ltb_spec 0 (medium_count scan)),
           (Z.ltb_spec 0 (low_count scan)); cbn [app].
  all: split; [intros shown [= <-]; split; [done|]; split; [done|]; split;
               [repeat constructor; cbn; lia
               |cbn; repeat (first [apply sublist_nil | apply sublist_skip
                                   | apply sublist_cons]) ]|].
  all: split; [split; [try discriminate; intros _; repeat split; (done || lia)
                      |intros (_ & _ & ? & ? & ? & ?); first [reflexivity | lia]]|].
  all: split; [discriminate | intros [_ ?]; lia].
Qed.

End ScanCardFacts.

(** ** The scan view: what is on the page *)

Section PartsFacts.
Import Types ScanDetail.

Lemma parts_by_status (s : Scan) :
  parts s =
  match status s with
  | completed => [Downloads; SeverityCounts; Vulnerabilities]
  | running | pending => [Progress]
  | failed =>
      if JS.truthy (error_message s)
      then [ErrorMessage (JS.interpolate (error_message s))] else []
  | cancelled => []
  end.
Proof.
  unfold parts. destruct (status s); try reflexivity.
  destruct (JS.truthy (error_message s)); reflexivity.
Qed.

Lemma truthy_interpolate (v : JS.str) (m : string) :
  (JS.truthy v = true /\ JS.interpolate v = m) <-> (v = Some m /\ m <> "").
Proof.
  destruct v as [e|]; cbn.
  - destruct (String.eqb_spec e ""); cbn; split.
    + intros [? _]; discriminate.
    + intros [[= ->] ?]; contradiction.
    + intros [_ <-]; done.
    + intros [[= ->] _]; done.
  - split; [intros [? _] | intros [? _]]; discriminate.
Qed.

Ltac crush_parts :=
  split; intros;
  repeat match goal with
         | H : _ \/ _ |- _ => destruct H
         | H : _ /\ _ |- _ => destruct H
         | H : False |- _ => destruct H
         | H : ErrorMessage _ = ErrorMessage _ |- _ => injection H as H
         end;
  subst; try discriminate; try congruence; auto 10.

(** X13.  The detail page follows the two queries.  The progress bar is
    on the page exactly while the scan query re-fetches; the download
    buttons, the severity cards and the list of findings are there
    exactly when the vulnerability query is enabled; an error box is
    there exactly for a failed scan with a non-empty message, and shows
    that message; and the progress bar is never there together with the
    findings. *)
Theorem parts_follow_queries (s : Scan) :
  (Progress ∈ parts s <-> refetchInterval (Some s) = Some 3000) /\
  (Downloads ∈ parts s <-> enabled (Some s) = true) /\
  (SeverityCounts ∈ parts s <-> enabled (Some s) = true) /\
  (Vulnerabilities ∈ parts s <-> enabled (Some s) = true) /\
  (forall m, ErrorMessage m ∈ parts s <->
     status s = failed /\ error_message s = Some m /\ m <> "") /\
  ~ (Progress ∈ parts s /\ Vulnerabilities ∈ parts s).
Proof.
  rewrite parts_by_status, refetchInterval_terminal.
  assert (enabled (Some s) = bool_decide (status s = completed)) as -> by reflexivity.
  split; [|split; [|split; [|split; [|split]]]].
  - destruct (status s); cbn; rewrite ?elem_of_cons, ?elem_of_nil;
      try destruct (JS.truthy _); rewrite ?elem_of_cons, ?elem_of_nil;
      crush_parts.
  - destruct (status s); cbn; rewrite ?elem_of_cons, ?elem_of_nil;
      try destruct (JS.truthy _); rewrite ?elem_of_cons, ?elem_of_nil;
      crush_parts.
  - destruct (status s); cbn; rewrite ?elem_of_cons, ?elem_of_nil;
      try destruct (JS.truthy _); rewrite ?elem_of_cons, ?elem_of_nil;
      crush_parts.
  - destruct (status s); cbn; rewrite ?elem_of_cons, ?elem_of_nil;
      try destruct (JS.truthy _); rewrite ?elem_of_cons, ?elem_of_nil;
      crush_parts.
  - intros m. rewrite <- truthy_interpolate.
    destruct (status s); rewrite ?elem_of_cons, ?elem_of_nil;
      try (crush_parts; fail).
    destruct (JS.truthy (error_message s));
      rewrite ?elem_of_cons, ?elem_of_nil; crush_parts.
  - destruct (status s); try destruct (JS.truthy _);
      rewrite ?elem_of_cons, ?elem_of_nil; intros [H1 H2];
      repeat match goal with
             | H : _ \/ _ |- _ => destruct H
             | H : False |- _ => destruct H
             end; discriminate.
Qed.

End PartsFacts.

(** ** Registration *)

Section RegisterFacts.
Import Api Forms Register.

(** X14.  The registration request goes out exactly when e-mail, user
    name and password are filled in, the two passwords are equal, the
    password has at least 8 and the user name at least 3 characters; it
    then carries these three fields and the full name, which is left out
    when empty.  The checks are made in this order, and the first that
    fails gives the message. *)
Theorem register_request_iff (js_length : string -> Z) (f : FormData) :
  let submission := handleSubmit js_length f in
  let filled := email f <> "" /\ username f <> "" /\ password f <> "" in
  (forall body, submission = Submit body <->
     filled /\ password f = confirmPassword f /\
     8 <= js_length (password f) /\ 3 <= js_length (username f) /\
     body = {| reg_email := email f; reg_username := username f;
               reg_password := password f;
               reg_full_name := if String.eqb (full_name f) "" then None
                                else Some (full_name f) |}) /\
  (forall body, submission = Submit body -> reg_full_name body <> Some "") /\
  (~ filled -> submission = Refused required_missing) /\
  (filled -> password f <> confirmPassword f ->
   submission = Refused password_mismatch) /\
  (filled -> password f = confirmPassword f -> js_length (password f) < 8 ->
   submission = Refused password_short) /\
  (filled -> password f = confirmPassword f -> 8 <= js_length (password f) ->
   js_length (username f) < 3 -> submission = Refused username_short).
Proof.
  intros submission filled. unfold submission, filled, handleSubmit.
  destruct (String.eqb_spec (email f) "") as [He|He]; cbn [orb].
  { repeat split; try discriminate; try tauto; intros; tauto. }
  destruct (String.eqb_spec (username f) "") as [Hu|Hu]; cbn [orb].
  { repeat split; try discriminate; try tauto; intros; tauto. }
  destruct (String.eqb_spec (password f) "") as [Hp|Hp]; cbn [orb].
  { repeat split; try discriminate; try tauto; intros; tauto. }
  destruct (String.eqb_spec (password f) (confirmPassword f)) as [Hc|Hc];
    cbn [negb].
  2: { repeat split; try discriminate; try tauto; intros; tauto. }
  destruct (Z.ltb_spec (js_length (password f)) 8) as [H8|H8].
  { repeat split; try discriminate; try tauto; intros; try tauto; lia. }
  destruct (Z.ltb_spec (js_length (username f)) 3) as [H3|H3].
  { repeat split; try discriminate; try tauto; intros; try tauto; lia. }
  split; [|split]; [| |repeat split; intros; try tauto; lia].
  - intros body. split.
    + intros [= <-]. repeat split; assumption.
    + intros (_ & _ & _ & _ & ->). reflexivity.
  - intros body [= <-]. cbn.
    destruct (String.eqb_spec (full_name f) ""); congruence.
Qed.

(** X15.  Whatever was caught, the registration form shows at least one
    toast; the toasts are 200 ms apart, the first at once, each for 5000
    ms; and a response with status 500 gives the one server-error toast
    whatever its body says. *)
Theorem register_always_toasts (error : Caught) :
  handleSubmit_catch error <> [] /\
  (forall (i : nat) t, handleSubmit_catch error !! i = Some t ->
     delay t = 200 * Z.of_nat i /\ duration t = 5000) /\
  (forall resp, response error = Some resp -> status resp = 500 ->
     handleSubmit_catch error =
       [ {| text := server_error; duration := 5000; delay := 0 |} ]).
Proof.
  split; [|split].
  - unfold handleSubmit_catch.
    assert (messages error <> []) as Hne.
    { unfold messages.
      match goal with |- match ?m with _ => _ end <> _ => destruct m end;
        discriminate. }
    destruct (messages error); [contradiction | discriminate].
  - intros i t. unfold handleSubmit_catch.
    rewrite list_lookup_imap. destruct (messages error !! i); cbn; [|discriminate].
    intros [= <-]. cbn. split; [lia | reflexivity].
  - intros resp Hresp H500. unfold handleSubmit_catch, messages.
    rewrite Hresp, H500. reflexivity.
Qed.

End RegisterFacts.

(** ** The routes *)

Section RouteFacts.
Import App.

(** X16.  From any location, signed in or not, at most one redirect
    leads to a page.  A page behind [ProtectedRoute] shows only to a
    signed-in user, and then inside the layout; the login and
    registration pages show only to a user who is not signed in. *)
Theorem routes_settle (isAuthenticated : bool) (path : list string) (n : nat) :
  exists page,
    visit (2 + n) isAuthenticated path = Some (page, protected page) /\
    (protected page = true -> isAuthenticated = true) /\
    (page = Login \/ page = Register -> isAuthenticated = false).
Proof.
  assert (visit (1 + n) isAuthenticated [] = Some (Landing, false)) as Hhome
    by reflexivity.
  assert (isAuthenticated = false ->
          visit (1 + n) isAuthenticated ["login"] = Some (Login, false)) as Hlogin
    by (intros ->; reflexivity).
  assert (isAuthenticated = true ->
          visit (1 + n) isAuthenticated ["dashboard"] = Some (Dashboard, true))
    as Hdash by (intros ->; reflexivity).
  change (2 + n)%nat with (S (1 + n)).
  destruct path as [|a [|b [|c rest]]]; cbn [visit Routes].
  - exists Landing. repeat split; try discriminate. intros [|]; discriminate.
  - destruct (JS.same_ignoring_case a "login");
      [|destruct (JS.same_ignoring_case a "register");
        [|destruct (JS.same_ignoring_case a "dashboard");
          [|destruct (JS.same_ignoring_case a "history")]]];
      unfold PublicRoute, ProtectedRoute;
      destruct isAuthenticated; cbn [negb];
      rewrite ?Hhome, ?Hlogin, ?Hdash by reflexivity;
      match goal with |- exists _, Some (?p, _) = _ /\ _ => exists p end;
      (split; [reflexivity|]); split; try discriminate; try reflexivity;
      intros [|]; (discriminate || reflexivity).
  - destruct (JS.same_ignoring_case a "scan");
      [destruct (JS.same_ignoring_case b "new")|];
      unfold PublicRoute, ProtectedRoute;
      destruct isAuthenticated; cbn [negb];
      rewrite ?Hhome, ?Hlogin, ?Hdash by reflexivity;
      match goal with |- exists _, Some (?p, _) = _ /\ _ => exists p end;
      (split; [reflexivity|]); split; try discriminate; try reflexivity;
      intros [|]; (discriminate || reflexivity).
  - rewrite Hhome. exists Landing. repeat split; try discriminate.
    intros [|]; discriminate.
Qed.

End RouteFacts.

(** ** Signing in *)

Section LoginFacts.
Import Api Forms Login.

Variable setTokens : JS.str -> JS.str -> AuthStore.State -> AuthStore.State.
Variable logout : AuthStore.State -> AuthStore.State.
Variable login : Body -> JS.str -> JS.str -> AuthStore.State -> AuthStore.State.

Lemma call_first_send (method url : string) (w : World) :
  exists r w' more,
    call setTokens logout method url w = Some (r, w') /\
    log w' = log w ++ Send (with_bearer (store w) (Api.request method url)) :: more.
Proof.
  unfold call, bind.
  destruct (api_first_send setTokens logout (Api.request method url) w 0)
    as (result & w' & more & Hrun & Hlog).
  cbn [Nat.add] in Hrun. rewrite Hrun. unfold ret. eauto 6.
Qed.

Lemma call_plain (method url : string) (w : World) :
  (forall r, reply_at 0 w = Http r -> status r <> 401) ->
  let c := with_bearer (store w) (Api.request method url) in
  call setTokens logout method url w =
  Some (match settle c (reply_at 0 w) with
        | Resolved resp => inr (data resp)
        | Rejected e => inl e
        end, sent c w).
Proof.
  intros Hno c. unfold call, bind.
  rewrite api_passthrough by (intros r Hr E; destruct (Hno r Hr E)).
  reflexivity.
Qed.

Lemma resolves_not_401 (r : Response) :
  validateStatus (status r) = true -> status r <> 401.
Proof. unfold validateStatus. intros H E. rewrite E in H. discriminate. Qed.

Lemma failed_ends_loading (e : AxiosError) :
  last (SetLoading true :: failed e) = Some (SetLoading false).
Proof. unfold failed. rewrite last_cons, last_snoc. reflexivity. Qed.

(** X17.  Whatever the backend answers, the handler returns.  With a
    field left empty it shows the one toast and nothing else happens: no
    request, no change of the session.  With both filled in, the first
    thing on the wire is the login request as the request interceptor left
    it, the loading flag is raised first and lowered last, and the handler
    navigates only after its success toast. *)
Theorem login_always_resets_loading (email password : string) (w : World) :
  exists effects w',
    handleSubmit setTokens logout login email password w = Some (effects, w') /\
    (email = "" \/ password = "" ->
     effects = [ToastError fields_missing] /\ w' = w) /\
    (email <> "" -> password <> "" ->
     (exists more,
        log w' = log w ++
          Send (with_bearer (store w) (Api.request "post" "/auth/login")) :: more) /\
     head effects = Some (SetLoading true) /\
     last effects = Some (SetLoading false) /\
     (Navigate "/dashboard" ∈ effects ->
      effects = [SetLoading true; ToastSuccess login_succeeded;
                 Navigate "/dashboard"; SetLoading false])).
Proof.
  unfold handleSubmit.
  destruct (String.eqb_spec email "") as [He|He]; cbn [orb].
  { eexists _, _. split; [reflexivity|]. split; [done|]. intros; contradiction. }
  destruct (String.eqb_spec password "") as [Hp|Hp]; cbn [orb].
  { eexists _, _. split; [reflexivity|]. split; [done|]. intros; contradiction. }
  assert (forall e, Navigate "/dashboard" ∉ SetLoading true :: failed e) as Hnonav.
  { intros e. unfold failed, handleSubmit_catch. cbn.
    rewrite !not_elem_of_cons. repeat split; try discriminate.
    apply not_elem_of_nil. }
  unfold authAPI_login, authAPI_me, bind at 1.
  destruct (call_first_send "post" "/auth/login" w)
    as (r1 & w1 & more1 & -> & Hlog1).
  destruct r1 as [e1|tokenResponse].
  { eexists _, _. split; [reflexivity|]. split; [intros [|]; contradiction|].
    intros _ _. split; [eauto|]. split; [reflexivity|].
    split; [apply failed_ends_loading|]. intros Hin. destruct (Hnonav _ Hin). }
  unfold bind at 1 2, emit, update_store. cbn [store wire log]. unfold bind at 1.
  match goal with |- context [call _ _ _ _ ?W] =>
    destruct (call_first_send "get" "/auth/me" W) as (r2 & w2 & more2 & -> & Hlog2)
  end.
  cbn [store log] in Hlog2.
  destruct r2 as [e2|userResponse].
  { eexists _, _. split; [reflexivity|]. split; [intros [|]; contradiction|].
    intros _ _. split.
    { rewrite Hlog2, Hlog1, <- !app_assoc. cbn. eauto. }
    split; [reflexivity|]. split; [apply failed_ends_loading|].
    intros Hin. destruct (Hnonav _ Hin). }
  unfold bind, update_store, ret.
  eexists _, _. split; [reflexivity|]. split; [intros [|]; contradiction|].
  intros _ _. cbn [log]. split.
  { rewrite Hlog2, Hlog1, <- !app_assoc. cbn. eauto. }
  repeat split.
Qed.

(** X18.  Both requests answered with a 2xx.  The tokens of the login
    response are stored before [/auth/me] is sent, and that request is
    what the request interceptor makes of the store so filled: when the
    store then holds a non-empty access token the request carries it.
    Afterwards the session is what [login] makes of the user, the tokens
    and that store; exactly the two requests went out; and the user is
    sent to the dashboard. *)
Theorem login_success_flow (email password : string) (w : World)
    (r1 r2 : Response) (rest : list Reply) :
  email <> "" -> password <> "" ->
  wire w = Http r1 :: Http r2 :: rest ->
  validateStatus (status r1) = true ->
  validateStatus (status r2) = true ->
  let a := access_token (data r1) in
  let r := refresh_token (data r1) in
  let filled := setTokens a r (store w) in
  let me := with_bearer filled (Api.request "get" "/auth/me") in
  handleSubmit setTokens logout login email password w =
    Some ([SetLoading true; ToastSuccess login_succeeded;
           Navigate "/dashboard"; SetLoading false],
          {| store := login (data r2) a r filled;
             wire := rest;
             log := log w ++
                    [Send (with_bearer (store w) (Api.request "post" "/auth/login"));
                     SetTokens a r; Send me] |}) /\
  (forall tok, AuthStore.accessToken filled = Some tok -> tok <> "" ->
     authorization me = Some ("Bearer " +:+ tok)).
Proof.
  intros He Hp Hwire H1 H2 a r filled me.
  split; [|intros tok; apply with_bearer_present].
  unfold handleSubmit.
  destruct (String.eqb_spec email "") as [|_]; [contradiction|].
  destruct (String.eqb_spec password "") as [|_]; [contradiction|].
  cbn [orb]. unfold authAPI_login, authAPI_me, bind at 1.
  rewrite call_plain; cycle 1.
  { unfold reply_at. rewrite Hwire. intros ? [= <-]. by apply resolves_not_401. }
  unfold reply_at at 1. rewrite Hwire. cbn [nth settle]. rewrite H1.
  unfold bind at 1 2, emit, update_store, sent. cbn [store wire log].
  rewrite Hwire. cbn [tail]. unfold bind at 1.
  rewrite call_plain; cycle 1.
  { unfold reply_at. cbn. intros ? [= <-]. by apply resolves_not_401. }
  unfold reply_at at 1. cbn [wire nth settle store]. rewrite H2.
  unfold bind, update_store, ret, sent. cbn [store wire log tail].
  rewrite <- !app_assoc. reflexivity.
Qed.

(** X19.  The login request is answered with a 2xx, but [/auth/me] gets
    no 2xx and no 401 (a 500, say, or no reply).  The user sees the error
    toast and stays on the page, [login] is not called, yet the tokens of
    the login response remain in the store. *)
Theorem login_me_failure_keeps_tokens (email password : string) (w : World)
    (r1 : Response) :
  email <> "" -> password <> "" ->
  reply_at 0 w = Http r1 ->
  validateStatus (status r1) = true ->
  succeeds (reply_at 1 w) = false ->
  (forall r2, reply_at 1 w = Http r2 -> status r2 <> 401) ->
  let a := access_token (data r1) in
  let r := refresh_token (data r1) in
  exists e w',
    handleSubmit setTokens logout login email password w =
      Some ([SetLoading true;
             ToastErrorFor {| text := error_message (of_axios e); duration := 5000 |};
             SetLoading false], w') /\
    settle (with_bearer (setTokens a r (store w)) (Api.request "get" "/auth/me"))
           (reply_at 1 w) = Rejected e /\
    store w' = setTokens a r (store w) /\
    wire w' = drop 2 (wire w).
Proof.
  intros He Hp Hr1 H1 Hfail Hno a r.
  unfold handleSubmit.
  destruct (String.eqb_spec email "") as [|_]; [contradiction|].
  destruct (String.eqb_spec password "") as [|_]; [contradiction|].
  cbn [orb]. unfold authAPI_login, authAPI_me, bind at 1.
  rewrite call_plain; cycle 1.
  { rewrite Hr1. intros ? [= <-]. by apply resolves_not_401. }
  rewrite Hr1. cbn [settle]. rewrite H1.
  unfold bind at 1 2, emit, update_store, sent. cbn [store wire log].
  unfold bind at 1.
  assert (forall l st, reply_at 0 {| store := st; wire := tail (wire w); log := l |}
                       = reply_at 1 w) as Hshift.
  { intros. unfold reply_at. cbn [wire]. by destruct (wire w). }
  rewrite call_plain; cycle 1.
  { rewrite Hshift. exact Hno. }
  rewrite Hshift. cbn [store].
  destruct (settle_fails
              (with_bearer (setTokens (access_token (data r1))
                                      (refresh_token (data r1)) (store w))
                 (Api.request "get" "/auth/me")) _ Hfail) as [e Hs].
  rewrite Hs. unfold ret, sent. cbn [store wire log].
  exists e. eexists. split; [reflexivity|]. split; [exact Hs|].
  split; [reflexivity|]. cbn [store wire]. apply tail_tail_drop.
Qed.

(** X20.  Wrong credentials on a client that holds no refresh token: the
    backend answers the login request with a 401 whose [detail] is a
    string.  The request went out once, no refresh call was made, the
    interceptor called [logout], and the toast shows that string. *)
Theorem login_rejected_when_logged_out (email password : string) (w : World)
    (r1 : Response) (d : string) :
  email <> "" -> password <> "" ->
  reply_at 0 w = Http r1 ->
  status r1 = 401 ->
  detail (data r1) = DetailString d ->
  JS.truthy (AuthStore.refreshToken (store w)) = false ->
  handleSubmit setTokens logout login email password w =
    Some ([SetLoading true;
           ToastErrorFor {| text := d; duration := 5000 |};
           SetLoading false],
          {| store := logout (store w);
             wire := tail (wire w);
             log := log w ++
                    [Send (with_bearer (store w) (Api.request "post" "/auth/login"));
                     MarkRetried; Logout] |}).
Proof.
  intros He Hp Hr1 H401 Hd Hrt.
  unfold handleSubmit.
  destruct (String.eqb_spec email "") as [|_]; [contradiction|].
  destruct (String.eqb_spec password "") as [|_]; [contradiction|].
  cbn [orb]. unfold authAPI_login, call, bind.
  rewrite (api_no_refresh_token setTokens logout 1
             (Api.request "post" "/auth/login") w r1 Hr1 H401 eq_refl Hrt).
  unfold ret, failed, handleSubmit_catch, error_message, of_axios.
  cbn [Forms.response Api.response]. rewrite Hd, H401. reflexivity.
Qed.

(** X21.  The same 401, but the store still holds a refresh token and the
    refresh call succeeds: the interceptor stores the new tokens and sends
    the login request a second time. *)
Theorem login_401_resent_after_refresh (email password : string) (w : World)
    (r1 resp : Response) :
  email <> "" -> password <> "" ->
  reply_at 0 w = Http r1 ->
  status r1 = 401 ->
  JS.truthy (AuthStore.refreshToken (store w)) = true ->
  reply_at 1 w = Http resp ->
  validateStatus (status resp) = true ->
  exists effects w' c1 c2,
    handleSubmit setTokens logout login email password w = Some (effects, w') /\
    take 5 (drop (length (log w)) (log w')) =
      [Send c1; MarkRetried;
       PostRefresh (JS.interpolate (AuthStore.refreshToken (store w)));
       SetTokens (access_token (data resp)) (refresh_token (data resp));
       Send c2] /\
    url c1 = "/auth/login" /\ url c2 = "/auth/login" /\
    method c1 = "post" /\ method c2 = "post".
Proof.
  intros He Hp Hr1 H401 Hrt Hr2 Hok.
  assert (settle refresh_config (reply_at 1 w) = Resolved resp) as Hs
    by (rewrite Hr2; cbn; by rewrite Hok).
  pose proof (api_refreshed setTokens logout 0 _ w r1 resp Hr1 H401
                (eq_refl : _retry (Api.request "post" "/auth/login") = false)
                Hrt Hs) as Hrun.
  cbn zeta in Hrun.
  destruct (with_bearer_rest (store w) (Api.request "post" "/auth/login"))
    as (Hu1 & Hm1 & _ & _).
  match type of Hrun with
  | _ = Some (_, {| store := _; wire := _; log := _ ++ [_; _; _; _; Send ?C] |}) =>
      destruct (with_bearer_rest
                  (setTokens (access_token (data resp)) (refresh_token (data resp))
                             (store w))
                  (set_header "Authorization"
                     ("Bearer " +:+ JS.interpolate (access_token (data resp)))
                     (set_retry (with_bearer (store w)
                                   (Api.request "post" "/auth/login")))))
        as (Hu2 & Hm2 & _ & _)
  end.
  cbn [url method set_header set_retry] in Hu2, Hm2.
  unfold handleSubmit.
  destruct (String.eqb_spec email "") as [|_]; [contradiction|].
  destruct (String.eqb_spec password "") as [|_]; [contradiction|].
  cbn [orb]. unfold authAPI_login, call, bind at 1 2. rewrite Hrun. unfold ret at 1.
  match goal with
  | |- context [settle ?C (reply_at 2 w)] => destruct (settle C (reply_at 2 w)) as [resp2|e2]
  end.
  - unfold authAPI_me, bind at 1 2, emit, update_store. cbn [store wire log].
    unfold bind at 1.
    match goal with |- context [call _ _ _ _ ?W] =>
      destruct (call_first_send "get" "/auth/me" W) as (r2 & w2 & more2 & -> & Hlog2)
    end.
    cbn [log] in Hlog2.
    destruct r2; unfold bind, update_store, ret; eexists _, _, _, _;
      (split; [reflexivity|]); cbn [log]; rewrite Hlog2, <- !app_assoc;
      rewrite drop_app_length; cbn [app take];
      (split; [reflexivity|]); rewrite Hu2, Hm2, Hu1, Hm1; repeat split.
  - eexists _, _, _, _. split; [reflexivity|]. cbn [log].
    rewrite drop_app_length. cbn [take].
    split; [reflexivity|]. rewrite Hu2, Hm2, Hu1, Hm1. repeat split.
Qed.

End LoginFacts.

(** ** The further properties at work on sample data *)

Section FurtherRuns.
Import Api Fixtures Samples.

(** A 500 goes to the caller as it is and the session stays. *)
Lemma only_401_touches_session_witness :
  exists w',
    api AuthStore.setTokens AuthStore.logout 2 get_scans (world [Http server_error]) =
      Some (Rejected {| config := with_bearer session get_scans;
                        response := Some server_error |}, w') /\
    store w' = session /\
    log w' = [Send (with_bearer session get_scans)].
Proof.
  destruct (only_401_touches_session AuthStore.setTokens AuthStore.logout
              get_scans (world [Http server_error]) 0)
    as (w' & Hrun & Hstore & Hlog & _).
  { intros r H. cbn in H. injection H as <-. cbn. lia. }
  exists w'. split; [exact Hrun|]. split; [exact Hstore | exact Hlog].
Defined.

(** A header the caller forged does not survive the interceptor. *)
Lemma bearer_overrides_caller_header_witness :
  with_bearer session (set_header "Authorization" "Bearer forged" get_scans) =
    with_bearer session get_scans /\
  with_bearer logged_out (set_header "Authorization" "Bearer forged" get_scans) =
    set_header "Authorization" "Bearer forged" get_scans.
Proof.
  destruct (bearer_overrides_caller_header session get_scans) as [_ Hover].
  split; [apply Hover; reflexivity | reflexivity].
Defined.

Lemma create_iff_valid_witness :
  NewScan.handleSubmit (fun _ => true) "example.com" false "quick" 3 =
    NewScan.Refused NewScan.terms_missing /\
  NewScan.handleSubmit (fun _ => true) "" false "quick" 3 =
    NewScan.Refused NewScan.url_missing.
Proof.
  destruct (create_iff_valid (fun _ => true) "example.com" false "quick" 3)
    as (_ & _ & Hterms & _).
  destruct (create_iff_valid (fun _ => true) "" false "quick" 3)
    as (_ & Hurl & _).
  split; [apply Hterms; [discriminate | reflexivity] | apply Hurl; reflexivity].
Defined.

Lemma depth_sent_witness :
  NewScan.depth_of "custom" 7 = 7 /\ NewScan.depth_of "deep" 7 = 3.
Proof.
  destruct (depth_sent "custom" 7) as (Hcustom & _).
  destruct (depth_sent "deep" 7) as (_ & _ & _ & Hother & _).
  split; [apply Hcustom; reflexivity | apply Hother; discriminate].
Defined.

Lemma one_button_highlighted_witness :
  ScanHistory.highlighted 7 12 = [7] /\
  ScanHistory.next 12 (ScanHistory.previous 7) = 7.
Proof.
  destruct (one_button_highlighted 7 12) as (Hone & Hback & _); [lia|].
  split; [exact Hone | apply Hback; lia].
Defined.

(** A running scan in front or a failed scan behind changes nothing. *)
Lemma dashboard_counts_completed_only_witness :
  Dashboard.stats 3 [scan_in Types.running; info_only] =
    Dashboard.stats 3 [info_only; scan_in Types.failed] /\
  Dashboard.pieData [scan_in Types.running; info_only] =
    Dashboard.pieData [info_only; scan_in Types.failed].
Proof.
  apply (dashboard_counts_completed_only 3
           [scan_in Types.running; info_only] [info_only; scan_in Types.failed]).
  vm_compute. reflexivity.
Defined.

Lemma pie_slices_positive_witness :
  Dashboard.pieData [scan_in Types.completed; scan_in Types.running] = [] /\
  Dashboard.name <$> Dashboard.pieData [info_only] = ["Info"].
Proof.
  destruct (pie_slices_positive [scan_in Types.completed; scan_in Types.running])
    as (_ & _ & Hempty).
  split; [|reflexivity].
  apply Hempty.
  - vm_compute. repeat constructor; discriminate.
  - vm_compute. repeat constructor.
Defined.

(** Info findings only: the card's summary line is empty. *)
Lemma card_summary_positive_counts_witness :
  ScanCard.summary info_only = ScanCard.Counts [] /\
  ScanCard.summary (scan_in Types.completed) = ScanCard.NothingFound.
Proof.
  destruct (card_summary_positive_counts info_only) as (_ & Hblank & _).
  destruct (card_summary_positive_counts (scan_in Types.completed))
    as (_ & _ & Hnone).
  split.
  - apply Hblank. cbn. repeat split; lia.
  - apply Hnone. cbn. split; [reflexivity | lia].
Defined.

Lemma register_request_iff_witness :
  Register.handleSubmit ascii_length new_user =
    Register.Submit {| Register.reg_email := "a@example.com";
                       Register.reg_username := "alice";
                       Register.reg_password := "correct horse";
                       Register.reg_full_name := None |}.
Proof.
  destruct (register_request_iff ascii_length new_user) as (Hiff & _).
  apply Hiff. cbn. repeat split; try discriminate; lia.
Defined.

Lemma register_always_toasts_witness :
  Register.handleSubmit_catch
    {| Forms.response := Some server_error; Forms.request := true;
       Forms.message := None |} =
    [ {| Register.text := Register.server_error; Register.duration := 5000;
         Register.delay := 0 |} ].
Proof.
  destruct (register_always_toasts
              {| Forms.response := Some server_error; Forms.request := true;
                 Forms.message := None |}) as (_ & _ & H500).
  apply (H500 server_error); reflexivity.
Defined.

(** A visitor who asks for the dashboard lands on the login page; a
    signed-in user who asks for the login page lands on the dashboard. *)
Lemma routes_settle_witness :
  App.visit 2 false ["Dashboard"] = Some (App.Login, false) /\
  App.visit 2 true ["login"] = Some (App.Dashboard, true).
Proof.
  destruct (routes_settle false ["Dashboard"] 0) as (p1 & Hv1 & _ & _).
  destruct (routes_settle true ["login"] 0) as (p2 & Hv2 & Hin & _).
  change (2 + 0)%nat with 2%nat in Hv1, Hv2.
  assert (p2 = App.Dashboard) as ->.
  { destruct (App.visit 2 true ["login"]) as [[q l]|] eqn:Hc in Hv2; [|discriminate].
    vm_compute in Hc. injection Hc as <- <-. by injection Hv2 as <-. }
  assert (p1 = App.Login) as ->.
  { destruct (App.visit 2 false ["Dashboard"]) as [[q l]|] eqn:Hc in Hv1;
      [|discriminate].
    vm_compute in Hc. injection Hc as <- <-. by injection Hv1 as <-. }
  split; [exact Hv1 | exact Hv2].
Defined.

Lemma login_always_resets_loading_witness :
  Login.handleSubmit AuthStore.setTokens AuthStore.logout login_action
    "" "secret" (signed_out [Http tokens_issued]) =
    Some ([Login.ToastError Login.fields_missing], signed_out [Http tokens_issued]) /\
  exists effects w',
    Login.handleSubmit AuthStore.setTokens AuthStore.logout login_action
      "a@example.com" "secret" (signed_out []) = Some (effects, w') /\
    last effects = Some (Login.SetLoading false).
Proof.
  destruct (login_always_resets_loading AuthStore.setTokens AuthStore.logout
              login_action "" "secret" (signed_out [Http tokens_issued]))
    as (e1 & w1 & Hrun1 & Hempty & _).
  destruct (Hempty (or_introl eq_refl)) as [-> ->].
  destruct (login_always_resets_loading AuthStore.setTokens AuthStore.logout
              login_action "a@example.com" "secret" (signed_out []))
    as (e2 & w2 & Hrun2 & _ & Hfilled).
  destruct Hfilled as (_ & _ & Hlast & _); [discriminate | discriminate |].
  split; [exact Hrun1|]. exists e2, w2. split; [exact Hrun2 | exact Hlast].
Defined.

Lemma login_success_flow_witness :
  exists w',
    Login.handleSubmit AuthStore.setTokens AuthStore.logout login_action
      "a@example.com" "secret" (signed_out [Http tokens_issued; Http ok]) =
      Some ([Login.SetLoading true; Login.ToastSuccess Login.login_succeeded;
             Login.Navigate "/dashboard"; Login.SetLoading false], w') /\
    AuthStore.accessToken (store w') = Some "access-2" /\
    sends (log w') =
      [Api.request "post" "/auth/login";
       set_header "Authorization" "Bearer access-2" (Api.request "get" "/auth/me")].
Proof.
  destruct (login_success_flow AuthStore.setTokens AuthStore.logout login_action
              "a@example.com" "secret" (signed_out [Http tokens_issued; Http ok])
              tokens_issued ok [])
    as [Hrun _]; try discriminate; try reflexivity.
  eexists. split; [exact Hrun|]. split; reflexivity.
Defined.

Lemma login_me_failure_keeps_tokens_witness :
  exists w',
    Login.handleSubmit AuthStore.setTokens AuthStore.logout login_action
      "a@example.com" "secret"
      (signed_out [Http tokens_issued; Http server_error]) =
      Some ([Login.SetLoading true;
             Login.ToastErrorFor {| Login.text := Login.server_error;
                                    Login.duration := 5000 |};
             Login.SetLoading false], w') /\
    AuthStore.accessToken (store w') = Some "access-2" /\
    AuthStore.refreshToken (store w') = Some "refresh-2".
Proof.
  destruct (login_me_failure_keeps_tokens AuthStore.setTokens AuthStore.logout
              login_action "a@example.com" "secret"
              (signed_out [Http tokens_issued; Http server_error]) tokens_issued)
    as (e & w' & Hrun & Hs & Hstore & _); try discriminate; try reflexivity.
  { intros r2 H. cbn in H. injection H as <-. cbn. lia. }
  cbn in Hs. injection Hs as <-.
  exists w'. split; [exact Hrun|]. rewrite Hstore. split; reflexivity.
Defined.

Lemma login_rejected_when_logged_out_witness :
  Login.handleSubmit AuthStore.setTokens AuthStore.logout login_action
    "a@example.com" "wrong" (signed_out [Http unauthorized]) =
    Some ([Login.SetLoading true;
           Login.ToastErrorFor {| Login.text := "Could not validate credentials";
                                  Login.duration := 5000 |};
           Login.SetLoading false],
          {| store := logged_out; wire := [];
             log := [Send (Api.request "post" "/auth/login"); MarkRetried; Logout] |}).
Proof.
  apply (login_rejected_when_logged_out AuthStore.setTokens AuthStore.logout
           login_action "a@example.com" "wrong" (signed_out [Http unauthorized])
           unauthorized "Could not validate credentials");
    try discriminate; reflexivity.
Defined.

(** A stale refresh token in the store: the credentials go out twice. *)
Lemma login_401_resent_after_refresh_witness :
  exists effects w',
    Login.handleSubmit AuthStore.setTokens AuthStore.logout login_action
      "a@example.com" "wrong"
      (world [Http unauthorized; Http tokens_issued; Http unauthorized]) =
      Some (effects, w') /\
    url <$> sends (log w') = ["/auth/login"; "/auth/login"] /\
    refreshes (log w') = 1%nat.
Proof.
  destruct (login_401_resent_after_refresh AuthStore.setTokens AuthStore.logout
              login_action "a@example.com" "wrong"
              (world [Http unauthorized; Http tokens_issued; Http unauthorized])
              unauthorized tokens_issued)
    as (effects & w' & c1 & c2 & Hrun & Hlog & Hu1 & Hu2 & _);
    try discriminate; try reflexivity.
  exists effects, w'. split; [exact Hrun|].
  destruct (Login.handleSubmit _ _ _ _ _ _) as [[e0 w0]|] eqn:Hc in Hrun;
    [|discriminate].
  vm_compute in Hc. injection Hc as <- <-. injection Hrun as _ <-.
  split; reflexivity.
Defined.

End FurtherRuns.
